(** * nuxt-og-image: option resolution, prerender plugin, screenshot drain, font loader

    A shallow embedding of [src/module.ts] (the [prerender:generate] hook and
    [captureScreenshots]), of the prerender Nitro plugin
    ([OgImagePrenderNitroPlugin]) and of [loadFont], together with the
    properties the specification states about them.

    JavaScript objects are finite maps from property names to values; the
    object spread [{...a, ...b}] is the left-biased union [b ∪ a].  Code that
    awaits an external collaborator is written in a state-and-exception monad
    over an explicit world; the collaborator's answer is a field of an
    environment record. *)

From stdpp Require Import gmap strings list fin_maps pretty.
From Stdlib Require Import ZArith Ascii.

Set Warnings "-register-all".
Open Scope Z_scope.

(** ** JavaScript values *)

Inductive JSValue : Type :=
| VUndefined
| VNull
| VBool (b : bool)
| VNum (n : Z)
| VStr (s : string)
| VArr (xs : list JSValue)
| VObj (fields : gmap string JSValue).

(** A plain object: own enumerable properties. *)
Abbreviation Obj := (gmap string JSValue).

(** [o.k]: reading an absent property gives [undefined]. *)
Definition prop (k : string) (o : Obj) : JSValue := default VUndefined (o !! k).

(** [v === null || v === undefined] *)
Definition nullish (v : JSValue) : bool :=
  match v with
  | VUndefined | VNull => true
  | _ => false
  end.

(** JavaScript truthiness (ToBoolean). *)
Definition truthy (v : JSValue) : bool :=
  match v with
  | VUndefined | VNull => false
  | VBool b => b
  | VNum n => negb (n =? 0)
  | VStr s => negb (bool_decide (s = ""%string))
  | VArr _ | VObj _ => true
  end.

(** [s.includes(sub)] and [s.startsWith(p)] *)
Fixpoint includes (sub s : string) : bool :=
  String.prefix sub s ||
  match s with
  | EmptyString => false
  | String _ s' => includes sub s'
  end.

Definition startsWith (p s : string) : bool := String.prefix p s.

(** The line feed, and [xs.join(sep)] on strings *)
Definition LF : string := String (Ascii.ascii_of_nat 10) EmptyString.

Definition joinLines (sep : string) (xs : list string) : string :=
  String.concat sep xs.

(** ** defu: recursive assignment of default properties

    The library function the module folds the matched route rules with, as
    of defu 6.1.  [_defu(base, defaults)] starts from
    [Object.assign({}, defaults)] and walks the keys of [base]: the keys
    [__proto__] and [constructor] and nullish values are skipped, two arrays
    are concatenated, two objects are merged recursively, and anything else
    replaces the default.  An object is whatever [isObject] accepts,
    [value !== null && typeof value === "object"]: a record or an array, the
    array counting as the record of its indices. *)

Definition protoKey (k : string) : bool :=
  bool_decide (k = "__proto__"%string) || bool_decide (k = "constructor"%string).

Definition isObject (v : JSValue) : bool :=
  match v with
  | VArr _ | VObj _ => true
  | _ => false
  end.

(** The own enumerable properties of an array: its elements by index. *)
Definition indexed (xs : list JSValue) : Obj :=
  list_to_map (imap (fun (i : nat) x => (pretty i, x)) xs).

Fixpoint defuValue (v d : JSValue) {struct v} : JSValue :=
  match v, d with
  | VArr xs, VArr ys => VArr (xs ++ ys)
  | VObj base, VObj defaults =>
      VObj (map_fold (fun key val (object : Obj) =>
              if protoKey key || nullish val then object
              else match object !! key with
                   | Some d' => <[key := defuValue val d']> object
                   | None => <[key := val]> object
                   end) defaults base)
  | VObj base, VArr ys =>
      VObj (map_fold (fun key val (object : Obj) =>
              if protoKey key || nullish val then object
              else match object !! key with
                   | Some d' => <[key := defuValue val d']> object
                   | None => <[key := val]> object
                   end) (indexed ys) base)
  | VArr xs, VObj defaults =>
      VObj ((fix walk (i : nat) (rest : list JSValue) (object : Obj) {struct rest} : Obj :=
               match rest with
               | [] => object
               | val :: rest' =>
                   walk (S i) rest'
                     (if nullish val then object
                      else match object !! pretty i with
                           | Some d' => <[pretty i := defuValue val d']> object
                           | None => <[pretty i := val]> object
                           end)
               end) 0%nat xs defaults)
  | _, _ => v
  end.

Definition defuStep (key : string) (val : JSValue) (object : Obj) : Obj :=
  if protoKey key || nullish val then object
  else match object !! key with
       | Some d' => <[key := defuValue val d']> object
       | None => <[key := val]> object
       end.

(** [_defu(base, defaults)] on two objects *)
Definition defuObj (base defaults : Obj) : Obj := map_fold defuStep defaults base.

(** [defu(...args)]: [args.reduce((p, c) => _defu(p, c), {})] *)
Definition defu (args : list Obj) : Obj := foldl defuObj ∅ args.

(** What one key of [_defu(base, defaults)] holds. *)
Definition defuField (b d : option JSValue) : option JSValue :=
  match b with
  | Some v =>
      if nullish v then d
      else Some (match d with Some d' => defuValue v d' | None => v end)
  | None => d
  end.

(** [v === false] and [v === 'literal'] *)
Definition isFalse (v : JSValue) : bool :=
  match v with
  | VBool false => true
  | _ => false
  end.

Definition isStr (lit : string) (v : JSValue) : bool :=
  match v with
  | VStr s => bool_decide (s = lit)
  | _ => false
  end.

(** [{...v}]: the own enumerable properties of [v].  An object spreads its
    fields, an array and a string their indices, anything else nothing. *)
Definition spread (v : JSValue) : Obj :=
  match v with
  | VObj o => o
  | VArr xs => indexed xs
  | VStr s => indexed ((fun c => VStr (String c EmptyString)) <$> String.list_ascii_of_string s)
  | _ => ∅
  end.

(** [v.k] for a property name that is neither an index nor built in: only
    an object can hold it.  (On [null] and [undefined] the access throws; the
    callers below reach it on truthy values, or check first.) *)
Definition field (k : string) (v : JSValue) : JSValue :=
  match v with
  | VObj o => prop k o
  | _ => VUndefined
  end.

(** [v || {}] *)
Definition orEmpty (v : JSValue) : JSValue := if truthy v then v else VObj ∅.

(** ** Imported collaborators

    Functions the two source files import and whose code is not part of them.
    [extractOgImageOptions] (runtime/nitro/utils-pure) returns the options
    payload of a page, or a falsy value when there is none.  [matchAll] is
    the radix3 route matcher built from [nitro.options.routeRules]; it lists
    the rules matching a route from the least specific pattern to the most
    specific one, so the last rule of the list is the most specific.
    [joinURL] and [withBase] come from ufo, [relative] from pathe;
    [joinURL] is what the call returns on segments it accepts, and the drain
    says below which segments make it throw.
    [roundPercent k len] is [Math.round((k + 1) / len * 100)], computed by
    the engine on doubles. *)
Class Imports := {
  extractOgImageOptions : string -> JSValue;
  matchAll : string -> list Obj;
  joinURL : list JSValue -> string;
  withBase : string -> string -> string;
  relative : string -> string -> string;
  roundPercent : nat -> nat -> Z
}.

(** ** Build state shared by the hooks *)

Definition Buffer := list Byte.byte.

(** One item of [optionCacheStorage]. *)
Record CacheEntry := {
  value : JSValue;
  expiresAt : Z
}.

(** An exception value. *)
Inductive Exn := Error (message : string).

(** One progress line of the capture pass: the colour, the tree connector,
    the path printed after the slash, the elapsed time and the percentage. *)
Record ProgressLine := {
  red : bool;
  lastConnector : bool;
  relPath : string;
  generateTimeMS : Z;
  percent : Z
}.

(** What the build does to the outside, in order. *)
Inductive Event :=
| LoggerInfo (msg : string)
| LoggerError (msg : string)
| LoggerLog (line : ProgressLine)
| LoggerLogRed (msg : string)
| ConsoleError (e : Exn)
| CallHook (queue : list Obj)
| SpawnInstall
| SpawnServe (dir : string)
| CreateBrowser
| Fetch (request : JSValue) (baseURL : option string)
| Screenshot (k : nat) (options : Obj)
| Mkdirp (dir : string)
| WriteFile (file : string)
| BrowserClose
| PreviewKill.

Record World := {
  optionCacheStorage : gmap string CacheEntry;
  screenshotQueue : list Obj;
  written : list (string * Buffer);
  browserOpen : bool;
  previewRunning : bool;
  trace : list Event
}.

Definition setCache (c : gmap string CacheEntry) (w : World) : World :=
  {| optionCacheStorage := c; screenshotQueue := screenshotQueue w;
     written := written w; browserOpen := browserOpen w;
     previewRunning := previewRunning w; trace := trace w |}.

Definition setQueue (q : list Obj) (w : World) : World :=
  {| optionCacheStorage := optionCacheStorage w; screenshotQueue := q;
     written := written w; browserOpen := browserOpen w;
     previewRunning := previewRunning w; trace := trace w |}.

Definition addWritten (f : string) (b : Buffer) (w : World) : World :=
  {| optionCacheStorage := optionCacheStorage w; screenshotQueue := screenshotQueue w;
     written := written w ++ [(f, b)]; browserOpen := browserOpen w;
     previewRunning := previewRunning w; trace := trace w |}.

Definition setBrowser (b : bool) (w : World) : World :=
  {| optionCacheStorage := optionCacheStorage w; screenshotQueue := screenshotQueue w;
     written := written w; browserOpen := b;
     previewRunning := previewRunning w; trace := trace w |}.

Definition setPreview (b : bool) (w : World) : World :=
  {| optionCacheStorage := optionCacheStorage w; screenshotQueue := screenshotQueue w;
     written := written w; browserOpen := browserOpen w;
     previewRunning := b; trace := trace w |}.

Definition emit (e : Event) (w : World) : World :=
  {| optionCacheStorage := optionCacheStorage w; screenshotQueue := screenshotQueue w;
     written := written w; browserOpen := browserOpen w;
     previewRunning := previewRunning w; trace := trace w ++ [e] |}.

Definition initialWorld : World :=
  {| optionCacheStorage := ∅; screenshotQueue := []; written := [];
     browserOpen := false; previewRunning := false; trace := [] |}.

Section Collection.
Context `{Imports}.

(** ** The [prerender:generate] hook (module.ts) *)

(** [defu({}, ..._routeRulesMatcher.matchAll(route).reverse())] *)
Definition routeRulesOf (route : string) : Obj :=
  defu (∅ :: reverse (matchAll route)).

(** The [path] of an entry: the component renderer's page when the
    extracted options name a component, the route itself otherwise. *)
Definition entryPath (route : string) (extractedOptions : JSValue) : string :=
  if truthy (field "component" extractedOptions)
  then ("/api/og-image-html?path=" +:+ route)%string
  else route.

(** The fields the hook derives from the route before spreading the
    extracted options over them. *)
Definition derivedFields (route : string) (extractedOptions : JSValue) : Obj :=
  <["path" := VStr (entryPath route extractedOptions)]> (<["route" := VStr route]> ∅).

(** [{ route, path, ...extractedOptions, ...(routeRules.ogImage || {}) }] *)
Definition makeEntry (route : string) (extractedOptions : JSValue) (routeRules : Obj) : Obj :=
  spread (orEmpty (prop "ogImage" routeRules))
    ∪ (spread extractedOptions
         ∪ <["path" := VStr (entryPath route extractedOptions)]>
             (<["route" := VStr route]> ∅)).

(** What the hook computes for one generated route: [None] when it returns
    before building an entry. *)
Definition resolveRoute (route : string) (contents : option string) : option Obj :=
  if includes "." route then None
  else match contents with
       | None => None
       | Some html =>
           if bool_decide (html = ""%string) then None
           else
             let extractedOptions := extractOgImageOptions html in
             let routeRules := routeRulesOf route in
             if negb (truthy extractedOptions) || isFalse (prop "ogImage" routeRules)
             then None
             else Some (makeEntry route extractedOptions routeRules)
       end.

(** [(nuxt.options._generate || entry.static) && entry.provider === 'browser'] *)
Definition eligible (generate : bool) (entry : Obj) : bool :=
  (generate || truthy (prop "static" entry)) && isStr "browser" (prop "provider" entry).

Definition prerenderGenerate (generate : bool) (route : string)
    (contents : option string) (w : World) : World :=
  match resolveRoute route contents with
  | None => w
  | Some entry =>
      if eligible generate entry
      then setQueue (screenshotQueue w ++ [entry]) w
      else w
  end.

(** ** The prerender Nitro plugin: the [render:html] hook *)

Record H3Event := {
  url : string;
  responseHeaders : list (string * string)
}.

Definition appendHeader (e : H3Event) (name val : string) : H3Event :=
  {| url := url e; responseHeaders := responseHeaders e ++ [(name, val)] |}.

(** Whether the [render:html] handler gets as far as the extracted options. *)
Definition fullPage (event : H3Event) : bool :=
  negb (includes "." (url event) || startsWith "/__nuxt_island/" (url event)).

(** [60 * 60 * 1000] and [5 * 1000] *)
Definition staticTTL : Z := 60 * 60 * 1000.
Definition dynamicTTL : Z := 5 * 1000.

(** The handler, given [process.env.prerender], the runtime configuration's
    [forcePrerender], the reading of [Date.now()] and the head of the
    rendered page. *)
Definition renderHtml (prerender forcePrerender : bool) (now : Z)
    (head : list string) (event : H3Event) (w : World) : World * H3Event :=
  if negb prerender then (w, event)
  else
    if includes "." (url event) || startsWith "/__nuxt_island/" (url event)
    then (w, event)
    else
      let options := extractOgImageOptions (joinLines LF head) in
      if negb (truthy options) then (w, event)
      else
        let w' :=
          setCache (<[url event :=
                       {| value := options;
                          expiresAt := now + (if truthy (field "static" options)
                                              then staticTTL else dynamicTTL) |}]>
                      (optionCacheStorage w)) w in
        if (forcePrerender || truthy (field "static" options))
           && isStr "satori" (field "provider" options)
        then (w', appendHeader event "x-nitro-prerender"
                    (joinURL [VStr (url event); VStr "/__og_image__/og.png"]))
        else (w', event).

End Collection.

(** ** A state-and-exception monad for the asynchronous code

    An [await]ed call either returns or throws; the world is threaded through. *)

Inductive Outcome (A : Type) :=
| Returned (a : A)
| Thrown (e : Exn).
Arguments Returned {A} a.
Arguments Thrown {A} e.

Definition M (W A : Type) : Type := W -> Outcome A * W.

Definition ret {W A} (a : A) : M W A := fun s => (Returned a, s).

Definition throw {W A} (e : Exn) : M W A := fun s => (Thrown e, s).

Definition bind {W A B} (m : M W A) (f : A -> M W B) : M W B :=
  fun s =>
    match m s with
    | (Returned a, s') => f a s'
    | (Thrown e, s') => (Thrown e, s')
    end.

Declare Scope js_scope.
Delimit Scope js_scope with js.
Notation "x <- c1 ;; c2" := (bind c1 (fun x => c2))
  (at level 100, c1 at next level, right associativity) : js_scope.
Notation "c1 ;; c2" := (bind c1 (fun _ => c2))
  (at level 100, right associativity) : js_scope.

(** [try { m } catch (e) { h e }] *)
Definition tryCatch {W A} (m : M W A) (h : Exn -> M W A) : M W A :=
  fun s =>
    match m s with
    | (Returned a, s') => (Returned a, s')
    | (Thrown e, s') => h e s'
    end.

(** [try { m } finally { f }]: [f] runs on both exits; what [m] did is kept
    unless [f] throws itself. *)
Definition tryFinally {W A} (m : M W A) (f : M W unit) : M W A :=
  fun s =>
    match m s with
    | (r, s') =>
        match f s' with
        | (Returned _, s'') => (r, s'')
        | (Thrown e, s'') => (Thrown e, s'')
        end
    end.

Definition modify {W} (f : W -> W) : M W unit := fun s => (Returned tt, f s).

Definition gets {W A} (f : W -> A) : M W A := fun s => (Returned (f s), s).

(** The answer of a collaborator, returned or thrown. *)
Definition settle {W A} (o : Outcome A) : M W A := fun s => (o, s).

(** [for] over a list, with the index of each element. *)
Fixpoint forEach {W A} (body : nat -> A -> M W unit) (i : nat) (l : list A) : M W unit :=
  match l with
  | [] => ret tt
  | x :: l' => (body i x ;; forEach body (S i) l')%js
  end.

(** ** The drain: [captureScreenshots] (module.ts)

    The answers of the outside during one drain.  [fetch], [globalFetch],
    [screenshot], [mkdirp] and [writeFile] are asked for the job at a given
    index of the queue; [jobStart] and [jobEnd] are the two readings of
    [Date.now()] in that job; [previewHost] is what the preview server prints
    after "Accepting connections at ", trimmed; [installExit] is the exit
    code of the installer, [None] for [null].

    Every awaited call is represented by its answer, a value or an
    exception: a promise that never settles (the preview server never
    printing its address) has no counterpart here.  [browser.close()],
    [previewProcess.kill()], the logger, [withBase] and [relative] are
    taken not to throw. *)
Record Env := {
  prerenderScreenshotsHook : list Obj -> Outcome (list Obj);
  installExit : option Z;
  previewHost : string;
  createBrowser : Outcome bool;
  fetch : nat -> JSValue -> string -> Outcome string;
  globalFetch : nat -> JSValue -> Outcome JSValue;
  screenshot : nat -> Obj -> Outcome Buffer;
  mkdirp : nat -> string -> Outcome unit;
  writeFile : nat -> string -> Buffer -> Outcome unit;
  jobStart : nat -> Z;
  jobEnd : nat -> Z
}.

(** [config.defaults], [nitro.options.output.publicDir] and
    [nuxt.options.app.baseURL]. *)
Record Config := {
  defaults : Obj;
  publicDir : string;
  baseURL : string
}.

Section Drain.
Context `{Imports} (config : Config) (env : Env).

Definition log (e : Event) : M World unit := modify (emit e).

(** An external call: it is recorded, then it settles. *)
Definition call {A} (e : Event) (o : Outcome A) : M World A :=
  (log e ;; settle o)%js.

(** The options handed to [screenshot]:
    [{ ...(config.defaults || {}), ...(entry || {}), host }] *)
Definition screenshotOptions (entry : Obj) (host : string) : Obj :=
  <["host" := VStr host]> (entry ∪ defaults config).

(** One turn of the normalising loop.  A queue item that holds a route and
    nothing else was inserted by the [og-image:prerenderScreenshots] hook and
    is completed from the page the preview server serves.  The matcher needs
    a string: on any other route it throws. *)
Definition completeEntry (host : string) (i : nat) (entry : Obj) : M World unit :=
  (entry1 <-
     (if truthy (prop "route" entry) && bool_decide (size entry = 1%nat)
      then
        html <- call (Fetch (prop "route" entry) (Some (withBase (baseURL config) host)))
                     (fetch env i (prop "route" entry) (withBase (baseURL config) host)) ;;
        let extractedOptions := extractOgImageOptions html in
        match prop "route" entry with
        | VStr route =>
            let routeRules := routeRulesOf route in
            if nullish extractedOptions
            then throw (Error "Cannot read properties of undefined (reading 'component')")
            else ret (spread (orEmpty (prop "ogImage" routeRules))
                        ∪ (spread extractedOptions
                             ∪ <["path" := VStr (entryPath route extractedOptions)]> ∅)
                        ∪ entry)
        | _ => throw (Error "path.startsWith is not a function")
        end
      else ret entry) ;;
   entry2 <-
     (if truthy (prop "component" entry1)
      then
        html <- call (Fetch (prop "path" entry1) None)
                     (globalFetch env i (prop "path" entry1)) ;;
        ret (<["html" := html]> entry1)
      else ret entry1) ;;
   modify (fun w => setQueue (<[i := entry2]> (screenshotQueue w)) w))%js.

(** [joinURL] is declared on strings.  After the base it skips a falsy
    segment; on a truthy segment that is not a string it throws a
    [TypeError], the value having none of the string methods it calls.  The
    route of a queue item is whatever the page, a route rule or a hook put
    there. *)
Definition joinable (v : JSValue) : bool :=
  match v with
  | VStr _ => true
  | _ => negb (truthy v)
  end.

Definition joined (segments : list JSValue) : M World string :=
  if forallb joinable segments then ret (joinURL segments)
  else throw (Error "input.startsWith is not a function").

(** The two output paths of a job, as the two calls of [joinURL] return
    them. *)
Definition jobDirname (entry : Obj) : string :=
  joinURL [VStr (publicDir config); prop "route" entry; VStr "/__og_image__/"].

Definition jobFilename (entry : Obj) : string :=
  joinURL [VStr (jobDirname entry); VStr "/og.png"].

(** The guarded part of a job; it returns [hasError]. *)
Definition captureImage (host : string) (k : nat) (entry : Obj)
    (dirname filename : string) : M World bool :=
  tryCatch
    (imgBuffer <- call (Screenshot k (screenshotOptions entry host))
                       (screenshot env k (screenshotOptions entry host)) ;;
     tryCatch (call (Mkdirp dirname) (mkdirp env k dirname))
              (fun _ => ret tt) ;;
     call (WriteFile filename) (writeFile env k filename imgBuffer) ;;
     modify (addWritten filename imgBuffer) ;;
     ret false)%js
    (fun e => log (ConsoleError e) ;; ret true)%js.

Definition progressLine (len k : nat) (filename : string) (hasError : bool) : ProgressLine :=
  {| red := hasError;
     lastConnector := bool_decide (k = (len - 1)%nat);
     relPath := relative (publicDir config) filename;
     generateTimeMS := jobEnd env k - jobStart env k;
     percent := roundPercent k len |}.

(** One turn of the capture loop.  The two paths are joined before the
    [try]: a route that cannot be joined throws out of the loop. *)
Definition captureJob (host : string) (len k : nat) (entry : Obj) : M World unit :=
  (dirname <- joined [VStr (publicDir config); prop "route" entry; VStr "/__og_image__/"] ;;
   filename <- joined [VStr dirname; VStr "/og.png"] ;;
   hasError <- captureImage host k entry dirname filename ;;
   log (LoggerLog (progressLine len k filename hasError)))%js.

Definition capturePass (host : string) (queue : list Obj) : M World unit :=
  forEach (captureJob host (length queue)) 0 queue.

(** The two loops, run once a browser is there. *)
Definition passes (host : string) : M World unit :=
  (queue <- gets screenshotQueue ;;
   log (LoggerInfo ("Prerendering " +:+ pretty (length queue) +:+ " og:image screenshots...")) ;;
   forEach (completeEntry host) 0 queue ;;
   queue' <- gets screenshotQueue ;;
   capturePass host queue')%js.

(** The body of the [try] block. *)
Definition drainBody : M World unit :=
  (let host := previewHost env in
   browser <- call CreateBrowser (createBrowser env) ;;
   if (browser : bool) then
     modify (setBrowser true) ;;
     passes host
   else
     log (LoggerLogRed "Failed to create a browser to create og:images."))%js.

(** The [finally] block: [await browser?.close(); previewProcess.kill()] *)
Definition teardown : M World unit :=
  (open <- gets browserOpen ;;
   (if (open : bool) then log BrowserClose ;; modify (setBrowser false) else ret tt) ;;
   log PreviewKill ;;
   modify (setPreview false))%js.

Definition installMessage : string :=
  "Failed to install Playwright dependency for og:image generation. Trying anyway...".

(** From the spawn of the installer to the end of the function. *)
Definition drainQueue : M World unit :=
  (log (LoggerInfo "Ensuring chromium install for og:image generation...") ;;
   log SpawnInstall ;;
   match installExit env with
   | Some 0 => ret tt
   | _ => log (LoggerError installMessage)
   end ;;
   log (SpawnServe (publicDir config)) ;;
   modify (setPreview true) ;;
   tryFinally
     (tryCatch drainBody (fun e => log (ConsoleError e)))
     teardown ;;
   modify (setQueue []))%js.

Definition captureScreenshots : M World unit :=
  (queue0 <- gets screenshotQueue ;;
   queue <- call (CallHook queue0) (prerenderScreenshotsHook env queue0) ;;
   modify (setQueue queue) ;;
   if bool_decide (length queue = 0%nat) then ret tt
   else drainQueue)%js.

End Drain.

(** ** Reading a trace *)

(** The progress lines logged, in order. *)
Definition progressLines (tr : list Event) : list ProgressLine :=
  omap (fun e => match e with LoggerLog l => Some l | _ => None end) tr.

(** The captures attempted, in order: the job and the options of each call
    of [screenshot]. *)
Definition screenshotCalls (tr : list Event) : list (nat * Obj) :=
  omap (fun e => match e with Screenshot k o => Some (k, o) | _ => None end) tr.

Section DrainDefs.
Context `{Imports} (config : Config) (env : Env).

(** The image a job ends up writing: the capture and the write must both
    succeed; the answer of [mkdirp] does not matter. *)
Definition jobImage (host : string) (k : nat) (entry : Obj) : option Buffer :=
  match screenshot env k (screenshotOptions config entry host) with
  | Returned imgBuffer =>
      match writeFile env k (jobFilename config entry) imgBuffer with
      | Returned _ => Some imgBuffer
      | Thrown _ => None
      end
  | Thrown _ => None
  end.

Definition jobFailed (host : string) (k : nat) (entry : Obj) : bool :=
  match jobImage host k entry with
  | Some _ => false
  | None => true
  end.

Definition jobWritten (host : string) (k : nat) (entry : Obj) : list (string * Buffer) :=
  match jobImage host k entry with
  | Some imgBuffer => [(jobFilename config entry, imgBuffer)]
  | None => []
  end.

(** What the normalising loop adds to a queue item that is not route-only:
    the page of its component, under [html], when the item names one. *)
Definition fetchedHtml (i : nat) (entry : Obj) : Obj :=
  if truthy (prop "component" entry)
  then match globalFetch env i (prop "path" entry) with
       | Returned html => {[ "html" := html ]}
       | Thrown _ => ∅
       end
  else ∅.

(** What the installer step logs: nothing on exit code 0, the error line on
    any other code and on [null]. *)
Definition installLog (exit : option Z) : list Event :=
  match exit with
  | Some 0 => []
  | _ => [LoggerError installMessage]
  end.

(** Whether a browser is there to close when the [finally] block runs. *)
Definition browserToClose (w : World) : bool :=
  match createBrowser env with
  | Returned true => true
  | _ => browserOpen w
  end.

End DrainDefs.

(** [w'] comes after [w]: the trace has only grown and the browser and the
    preview server are as they were. *)
Definition after (w w' : World) : Prop :=
  (exists rest, trace w' = trace w ++ rest) /\
  browserOpen w' = browserOpen w /\
  previewRunning w' = previewRunning w.

(** A computation that leaves the two processes alone and only appends to
    the trace, whether it returns or throws. *)
Definition quiet {A} (m : M World A) : Prop := forall w, after w (m w).2.

(** ** The font loader: [loadFont] *)

Module Font.

(** A font reference: family name, weight, an optional local path, the key
    of the font in the [/assets] storage and, once known, the bytes. *)
Record ResolvedFontConfig := {
  name : string;
  weight : Z;
  path : option string;
  key : option string;
  data : option Buffer
}.

Definition withData (font : ResolvedFontConfig) (d : Buffer) : ResolvedFontConfig :=
  {| name := name font; weight := weight font; path := path font;
     key := key font; data := Some d |}.

(** A call of [e.$fetch]: the address, the [baseURL] option and the [font]
    of the query; the response type is always [arrayBuffer]. *)
Record Request := {
  address : string;
  baseURL : option string;
  query : option ResolvedFontConfig
}.

(** The [/assets] storage (base64 text by key) and the requests sent. *)
Record Store := {
  assets : gmap string string;
  requests : list Request
}.

Definition send (r : Request) (s : Store) : Store :=
  {| assets := assets s; requests := requests s ++ [r] |}.

(** A string is truthy unless it is absent or empty. *)
Definition given (s : option string) : option string :=
  match s with
  | Some x => if bool_decide (x = ""%string) then None else Some x
  | None => None
  end.

Section Loader.
(** [Buffer.from(text, 'base64')], [useNitroOrigin(e)], the answer of
    [e.$fetch], and the text a template literal gives for a number. *)
Variable fromBase64 : string -> Buffer.
Variable nitroOrigin : string.
Variable fetch : Request -> Outcome Buffer.
Variable numberToString : Z -> string.

Definition localRequest (font : ResolvedFontConfig) (p : string) : Request :=
  {| address := p; baseURL := Some nitroOrigin; query := None |}.

Definition endpointRequest (font : ResolvedFontConfig) : Request :=
  {| address := ("/__og-image__/font/" +:+ name font +:+ "/" +:+ numberToString (weight font) +:+ ".ttf")%string;
     baseURL := None;
     query := Some font |}.

Definition fetchFont (r : Request) : M Store Buffer :=
  (modify (send r) ;; settle (fetch r))%js.

(** [assets.hasItem(k)] and [assets.getItem(k)] *)
Definition hasItem (k : string) : M Store bool :=
  gets (fun s => bool_decide (is_Some (assets s !! k))).

Definition getItem (k : string) : M Store (option string) :=
  gets (fun s => assets s !! k).

(** The cached branch: [Buffer.from(fontData!, 'base64')] throws on [null]. *)
Definition fromCache (font : ResolvedFontConfig) (k : string) : M Store ResolvedFontConfig :=
  (fontData <- getItem k ;;
   match fontData with
   | Some text => ret (withData font (fromBase64 text))
   | None => throw (Error "The first argument must be of type string")
   end)%js.

Definition fromFetch (font : ResolvedFontConfig) : M Store ResolvedFontConfig :=
  (d <- match given (path font) with
        | Some p => fetchFont (localRequest font p)
        | None => fetchFont (endpointRequest font)
        end ;;
   ret (withData font d))%js.

(** The font comes back with its [data] set; in the source it is the
    object passed in, updated in place. *)
Definition loadFont (font : ResolvedFontConfig) : M Store ResolvedFontConfig :=
  match data font with
  | Some _ => ret font
  | None =>
      match given (key font) with
      | Some k =>
          (cached <- hasItem k ;;
           if (cached : bool) then fromCache font k else fromFetch font)%js
      | None => fromFetch font
      end
  end.

(** The text the storage holds for a font, when the font has a key. *)
Definition cachedText (font : ResolvedFontConfig) (s : Store) : option string :=
  match given (key font) with
  | Some k => assets s !! k
  | None => None
  end.

(** The request sent on a cache miss: the local path when one is configured,
    the font endpoint otherwise. *)
Definition fontRequest (font : ResolvedFontConfig) : Request :=
  match given (path font) with
  | Some p =>
      {| address := p; baseURL := Some nitroOrigin; query := None |}
  | None =>
      {| address :=
           ("/__og-image__/font/" +:+ name font +:+ "/"
              +:+ numberToString (weight font) +:+ ".ttf")%string;
         baseURL := None;
         query := Some font |}
  end.

End Loader.

End Font.

(** ** The resolution law as the specification words it

    [merge(d, e, o1, ..., on)]: a field-by-field shallow merge in which a
    later layer overrides an earlier one. *)
Definition shallowMerge (layers : list Obj) : Obj :=
  foldl (fun acc o => o ∪ acc) ∅ layers.

(** The overlay a matched route rule contributes: the fields of its
    [ogImage] record. *)
Definition overlay (rule : Obj) : Obj := spread (orEmpty (prop "ogImage" rule)).

(** [resolve(e, overlays, d)], the overlays listed from the least specific
    to the most specific. *)
Definition specResolve (e : Obj) (overlays : list Obj) (d : Obj) : Obj :=
  shallowMerge (d :: e :: overlays).

(** Two values that [defu] combines, where a shallow merge would let the
    first replace the second: two objects, each a record or an array. *)
Definition mergeable (v d : JSValue) : bool := isObject v && isObject d.

(** The field [k: v] of a record replaces whatever [bottom] holds under [k]:
    the name is an ordinary one, the value is not nullish, and [bottom] holds
    nothing there that [defu] would combine with it. *)
Definition replaces (bottom : Obj) (k : string) (v : JSValue) : bool :=
  negb (protoKey k) && negb (nullish v) &&
  match bottom !! k with
  | Some d => negb (mergeable v d)
  | None => true
  end.

(** Every field of [top] replaces the field of [bottom]. *)
Definition overrides (top bottom : Obj) : Prop :=
  map_Forall (fun k v => replaces bottom k v = true) top.

(** A route rule typed as the module declares it,
    [ogImage?: false | Record<string, any>]. *)
Definition typedRule (rule : Obj) : Prop :=
  match rule !! "ogImage" with
  | None | Some VUndefined | Some VNull | Some (VBool false) | Some (VObj _) => True
  | Some _ => False
  end.

(** Between two rules that both carry an [ogImage] record, the fields of the
    first replace those of the second. *)
Definition overridesRule (top bottom : Obj) : Prop :=
  match top !! "ogImage", bottom !! "ogImage" with
  | Some (VObj t), Some (VObj b) => overrides t b
  | _, _ => True
  end.

(** A list of rules, the most specific first, in which every rule overrides
    each of the less specific ones field by field. *)
Fixpoint layered (rules : list Obj) : Prop :=
  match rules with
  | [] => True
  | top :: rest => Forall (overridesRule top) rest /\ layered rest
  end.

(** The same tests as functions to [bool]. *)
Definition typedRuleb (rule : Obj) : bool :=
  match rule !! "ogImage" with
  | None | Some VUndefined | Some VNull | Some (VBool false) | Some (VObj _) => true
  | Some _ => false
  end.

Definition overridesRuleb (top bottom : Obj) : bool :=
  match top !! "ogImage", bottom !! "ogImage" with
  | Some (VObj t), Some (VObj b) =>
      bool_decide (map_Forall (fun k v => replaces b k v = true) t)
  | _, _ => true
  end.

Fixpoint layeredb (rules : list Obj) : bool :=
  match rules with
  | [] => true
  | top :: rest => forallb (overridesRuleb top) rest && layeredb rest
  end.

(** ** A sample site, for running the definitions *)

Module Sample.

Definition staticPage : string := "<script id=og>static browser</script>".
Definition dynamicPage : string := "<script id=og>dynamic browser</script>".
Definition satoriPage : string := "<script id=og>static satori</script>".
Definition plainPage : string := "<p>nothing here</p>".

Definition sampleExtract (html : string) : JSValue :=
  if includes "static browser" html
  then VObj {[ "provider" := VStr "browser"; "static" := VBool true ]}
  else if includes "dynamic browser" html
  then VObj {[ "provider" := VStr "browser" ]}
  else if includes "static satori" html
  then VObj {[ "provider" := VStr "satori"; "static" := VBool true ]}
  else VBool false.

(** The rule for everything under [/blog/] sets the width, the rule for
    [/blog/post-1] the height and a narrower width; the rule for everything
    under [/docs/] and the rule for [/docs/intro] both set [props]; the rule
    for [/private] switches the image off. *)
Definition blogRule : Obj := {[ "ogImage" := VObj {[ "width" := VNum 1000 ]} ]}.
Definition postRule : Obj :=
  {[ "ogImage" := VObj {[ "height" := VNum 500; "width" := VNum 800 ]} ]}.
Definition docsRule : Obj :=
  {[ "ogImage" := VObj {[ "props" := VObj {[ "title" := VStr "Docs" ]} ]} ]}.
Definition introRule : Obj :=
  {[ "ogImage" := VObj {[ "props" := VObj {[ "color" := VStr "red" ]} ]} ]}.
Definition privateRule : Obj := {[ "ogImage" := VBool false ]}.

Definition sampleMatchAll (route : string) : list Obj :=
  (if startsWith "/blog/" route then [blogRule] else [])
    ++ (if bool_decide (route = "/blog/post-1"%string) then [postRule] else [])
    ++ (if startsWith "/docs/" route then [docsRule] else [])
    ++ (if bool_decide (route = "/docs/intro"%string) then [introRule] else [])
    ++ (if bool_decide (route = "/private"%string) then [privateRule] else []).

(** Joining the string segments with one slash between them, enough to run
    the examples. *)
Definition withTrailingSlash (s : string) : string :=
  if String.eqb (String.substring (String.length s - 1) 1 s) "/" then s else (s +:+ "/")%string.

Definition withoutLeadingSlash (s : string) : string :=
  match s with
  | String "/"%char s' => s'
  | _ => s
  end.

Definition sampleJoinURL (segments : list JSValue) : string :=
  foldl (fun acc v =>
           match v with
           | VStr seg =>
               if bool_decide (seg = ""%string) || bool_decide (seg = "/"%string) then acc
               else if bool_decide (acc = ""%string) then seg
               else (withTrailingSlash acc +:+ withoutLeadingSlash seg)%string
           | _ => acc
           end) ""%string segments.

Definition sampleImports : Imports :=
  {| extractOgImageOptions := sampleExtract;
     matchAll := sampleMatchAll;
     joinURL := sampleJoinURL;
     withBase := fun base host => (host +:+ base)%string;
     relative := fun _ to => to;
     roundPercent := fun k len =>
       (200 * (Z.of_nat k + 1) + Z.of_nat len) / (2 * Z.of_nat len) |}.

Definition sampleConfig : Config :=
  {| defaults := {[ "component" := VStr "OgImageBasic"; "width" := VNum 1200;
                    "height" := VNum 630 ]};
     publicDir := "/out/public";
     baseURL := "/" |}.

Definition png : Buffer := [Byte.x89; Byte.x50; Byte.x4e; Byte.x47].

(** Two static jobs: the capture of [/a] fails, that of [/b] succeeds; the
    installer exits with code 1. *)
Definition jobA : Obj := {[ "route" := VStr "/a"; "static" := VBool true ]}.
Definition jobB : Obj := {[ "route" := VStr "/b"; "static" := VBool true ]}.

Definition scenarioEnv : Env :=
  {| prerenderScreenshotsHook := fun queue => Returned queue;
     installExit := Some 1;
     previewHost := "http://localhost:3000";
     createBrowser := Returned true;
     fetch := fun _ _ _ => Returned staticPage;
     globalFetch := fun _ _ => Returned (VStr "<html></html>");
     screenshot := fun k _ =>
       match k with
       | O => Thrown (Error "page crashed")
       | _ => Returned png
       end;
     mkdirp := fun _ _ => Returned tt;
     writeFile := fun _ _ _ => Returned tt;
     jobStart := fun k => 1000 * Z.of_nat k;
     jobEnd := fun k => 1000 * Z.of_nat k + 250 |}.

Definition scenarioWorld : World := setQueue [jobA; jobB] initialWorld.

(** The hook inserts a route-only item whose page cannot be fetched: the
    normalising loop throws at it. *)
Definition stubEnv : Env :=
  {| prerenderScreenshotsHook := fun queue => Returned (queue ++ [{[ "route" := VStr "/stub" ]}]);
     installExit := Some 0;
     previewHost := "http://localhost:3000";
     createBrowser := Returned true;
     fetch := fun _ _ _ => Thrown (Error "404 Not Found");
     globalFetch := fun _ _ => Returned (VStr "<html></html>");
     screenshot := fun _ _ => Returned png;
     mkdirp := fun _ _ => Returned tt;
     writeFile := fun _ _ _ => Returned tt;
     jobStart := fun k => 1000 * Z.of_nat k;
     jobEnd := fun k => 1000 * Z.of_nat k + 250 |}.

End Sample.

(** ** Further notions, for the properties beyond the claims *)

(** A value that is neither nullish nor an array nor an object. *)
Definition scalar (v : JSValue) : bool :=
  match v with
  | VBool _ | VNum _ | VStr _ => true
  | _ => false
  end.

(** The test of the normalising loop,
    [entry.route && Object.keys(entry).length === 1]. *)
Definition routeOnly (entry : Obj) : bool :=
  truthy (prop "route" entry) && bool_decide (size entry = 1%nat).

(** A queue item the normalising loop has nothing to do for: it is not
    route-only and names no component. *)
Definition settled (entry : Obj) : bool :=
  negb (routeOnly entry) && negb (truthy (prop "component" entry)).

Section Collecting.
Context `{Imports}.

(** The [prerender:generate] hook fired for each generated route in turn,
    with the route and the contents of each. *)
Definition collect (generate : bool) (pages : list (string * option string))
    (w : World) : World :=
  foldl (fun acc page => prerenderGenerate generate page.1 page.2 acc) w pages.

(** The job one generated route contributes to the queue, if any. *)
Definition jobOf (generate : bool) (page : string * option string) : option Obj :=
  match resolveRoute page.1 page.2 with
  | Some entry => if eligible generate entry then Some entry else None
  | None => None
  end.

End Collecting.

(** A computation that takes no screenshot, writes no image, logs no
    progress line and keeps the number of queued jobs, whether it returns or
    throws. *)
Definition preparing {A} (m : M World A) : Prop :=
  forall w,
    length (screenshotQueue (m w).2) = length (screenshotQueue w) /\
    screenshotCalls (trace (m w).2) = screenshotCalls (trace w) /\
    progressLines (trace (m w).2) = progressLines (trace w) /\
    written (m w).2 = written w.

(** What the [try] block reports when no browser is obtained: the red line
    on [null], the exception when [createBrowser] throws. *)
Definition browserFailure (o : Outcome bool) : Event :=
  match o with
  | Thrown e => ConsoleError e
  | Returned _ => LoggerLogRed "Failed to create a browser to create og:images."
  end.

Section AtTry.
Context (config : Config) (env : Env).

(** The world when the [try] block is entered: the installer has run and
    the preview server has been spawned. *)
Definition atTry (w : World) : World :=
  setPreview true
    (emit (SpawnServe (publicDir config))
       (foldl (fun acc e => emit e acc)
          (emit SpawnInstall
             (emit (LoggerInfo "Ensuring chromium install for og:image generation...") w))
          (installLog (installExit env)))).

End AtTry.

(** ** The module options: [defaults(nuxt)] and the head of [setup] *)

Module Options.

(** [a || b] *)
Definition jsOr (a b : JSValue) : JSValue := if truthy a then a else b.

(** [list.includes(v)] on a list of strings *)
Definition arrayIncludes (l : list string) (v : JSValue) : bool :=
  match v with
  | VStr s => bool_decide (s ∈ l)
  | _ => false
  end.

Definition edgeProvidersSupported : list string :=
  ["cloudflare"; "cloudflare-pages"; "vercel-edge"; "netlify-edge"]%string.

(** The variables of [process.env] the module reads; each is a string or
    [undefined]. *)
Record ProcessEnv := {
  NUXT_PUBLIC_SITE_URL : JSValue;
  NUXT_SITE_URL : JSValue;
  NITRO_PRESET : JSValue;
  NODE_ENV : JSValue
}.

(** What the module reads of [nuxt.options]: [dev], [_generate],
    [nitro.preset], [runtimeConfig.public?.siteUrl] and
    [runtimeConfig.siteUrl]. *)
Record NuxtOptions := {
  dev : bool;
  _generate : bool;
  preset : JSValue;
  publicSiteUrl : JSValue;
  runtimeSiteUrl : JSValue
}.

Record ModuleOptions := {
  host : JSValue;
  siteUrl : JSValue;
  defaults : Obj;
  fonts : list string;
  satoriOptions : Obj;
  forcePrerender : bool;
  satoriProvider : bool;
  browserProvider : bool;
  experimentalInlineWasm : bool;
  playground : bool;
  debug : bool
}.

Definition isEdgeProvider (env : ProcessEnv) (nuxt : NuxtOptions) : bool :=
  arrayIncludes edgeProvidersSupported (jsOr (NITRO_PRESET env) (VStr ""))
  || arrayIncludes edgeProvidersSupported (preset nuxt).

(** [defaults(nuxt)]; [host] and [debug] get no default. *)
Definition defaultOptions (env : ProcessEnv) (nuxt : NuxtOptions) : ModuleOptions :=
  {| host := VUndefined;
     siteUrl := jsOr (jsOr (jsOr (NUXT_PUBLIC_SITE_URL env) (NUXT_SITE_URL env))
                              (publicSiteUrl nuxt))
                       (runtimeSiteUrl nuxt);
     defaults := {[ "component" := VStr "OgImageBasic"; "width" := VNum 1200;
                    "height" := VNum 630 ]};
     fonts := [];
     satoriOptions := ∅;
     forcePrerender := negb (dev nuxt) && _generate nuxt;
     satoriProvider := true;
     browserProvider := negb (isEdgeProvider env nuxt);
     experimentalInlineWasm :=
       isStr "netlify-edge" (NITRO_PRESET env) || isStr "netlify-edge" (preset nuxt) || false;
     playground := isStr "development" (NODE_ENV env) || dev nuxt;
     debug := false |}.

(** The first statements of [setup]: the site URL falls back to [host], an
    empty font list becomes the two Inter fonts. *)
Definition normalise (config : ModuleOptions) : ModuleOptions :=
  {| host := host config;
     siteUrl := jsOr (siteUrl config) (host config);
     defaults := defaults config;
     fonts := match fonts config with
              | [] => ["Inter:400"; "Inter:700"]%string
              | _ => fonts config
              end;
     satoriOptions := satoriOptions config;
     forcePrerender := forcePrerender config;
     satoriProvider := satoriProvider config;
     browserProvider := browserProvider config;
     experimentalInlineWasm := experimentalInlineWasm config;
     playground := playground config;
     debug := debug config |}.

(** The renderers [useProvider] can hand out. *)
Inductive Renderer := Satori | Browser.

(** The function exported by the generated module
    [#nuxt-og-image/provider]: the template writes the name of a renderer
    or [null] into each [return], from the two provider switches. *)
Definition useProvider (config : ModuleOptions) (provider : JSValue) : option Renderer :=
  if isStr "satori" provider
  then (if satoriProvider config then Some Satori else None)
  else if isStr "browser" provider
  then (if browserProvider config then Some Browser else None)
  else None.

(** Which build hooks call [captureScreenshots]: none in development,
    [rollup:before] and [close] when generating. *)
Definition drainHooks (nuxt : NuxtOptions) : list string :=
  if dev nuxt then []
  else if _generate nuxt then ["rollup:before"; "close"]%string
  else [].

End Options.

(** ** The [compiled] hook: assets and entry file of an edge build *)

Module Compiled.

(** The files of the build, contents by path.  A file operation fails only
    on a missing source; [copy] (fs-extra) creates the destination. *)
Abbreviation Files := (gmap string string).

(** What the hook reads of [_nitro.options]: [preset], [output.publicDir],
    [output.serverDir] and [rollupConfig?.output.entryFileNames]. *)
Record NitroOptions := {
  preset : string;
  publicDir : string;
  serverDir : string;
  entryFileNames : JSValue
}.

(** The double quote, and the two tokens of the entry file. *)
Definition dq : string := String (Ascii.ascii_of_nat 34) EmptyString.

Definition svg2pngToken : string := (dq +:+ "/* NUXT_OG_IMAGE_SVG2PNG_WASM */" +:+ dq)%string.
Definition yogaToken : string := (dq +:+ "/* NUXT_OG_IMAGE_YOGA_WASM */" +:+ dq)%string.

Definition copy (src dst : string) : M Files unit :=
  fun fs =>
    match fs !! src with
    | Some contents => (Returned tt, <[dst := contents]> fs)
    | None => (Thrown (Error "ENOENT: no such file or directory"), fs)
    end.

Definition pathExists (p : string) : M Files bool :=
  gets (fun fs => bool_decide (is_Some (fs !! p))).

Definition readFile (p : string) : M Files string :=
  fun fs =>
    match fs !! p with
    | Some contents => (Returned contents, fs)
    | None => (Thrown (Error "ENOENT: no such file or directory"), fs)
    end.

Definition writeFile (p contents : string) : M Files unit :=
  modify (insert p contents).

Section Hook.
(** [resolve] of the module's resolver, applied to its arguments;
    [s.replace(pattern, replacement)]; the base64 text of a file's contents,
    as [readFile(path, 'base64')] gives it. *)
Variable resolve : list string -> string.
Variable replace : string -> string -> string -> string.
Variable toBase64 : string -> string.

(** [config.experimentalInlineWasm] and [useSatoriWasm]. *)
Variable experimentalInlineWasm : bool.
Variable useSatoriWasm : bool.

Definition asset (file : string) : string :=
  resolve [("./runtime/public-assets/" +:+ file)%string].

Definition entryFile (options : NitroOptions) : string :=
  match entryFileNames options with
  | VStr configuredEntry => configuredEntry
  | _ => "index.mjs"
  end.

Definition indexFile (options : NitroOptions) : string :=
  resolve [serverDir options; entryFile options].

(** The copies: the two fonts, then the wasm files unless they are inlined. *)
Definition copyAssets (options : NitroOptions) : M Files unit :=
  (copy (asset "inter-latin-ext-400-normal.woff")
        (resolve [publicDir options; "inter-latin-ext-400-normal.woff"%string]) ;;
   copy (asset "inter-latin-ext-700-normal.woff")
        (resolve [publicDir options; "inter-latin-ext-700-normal.woff"%string]) ;;
   if negb experimentalInlineWasm
   then
     copy (asset "svg2png.wasm") (resolve [serverDir options; "svg2png.wasm"%string]) ;;
     if useSatoriWasm
     then copy (asset "yoga.wasm") (resolve [serverDir options; "yoga.wasm"%string])
     else ret tt
   else ret tt)%js.

(** The replacement of the tokens in the entry file, when there is one. *)
Definition rewriteEntry (options : NitroOptions) : M Files unit :=
  (present <- pathExists (indexFile options) ;;
   if (present : bool)
   then
     contents <- readFile (indexFile options) ;;
     let indexContents :=
       if includes "vercel" (preset options)
       then replace contents ".cwd()," ("?.cwd || " +:+ dq +:+ "/" +:+ dq +:+ ",")%string
       else contents in
     if negb experimentalInlineWasm
     then
       writeFile (indexFile options)
         (replace
            (replace indexContents svg2pngToken
               ("import(" +:+ dq +:+ "./svg2png.wasm" +:+ dq
                  +:+ ").then(m => m.default || m)")%string)
            yogaToken
            ("import(" +:+ dq +:+ "./yoga.wasm" +:+ dq
               +:+ ").then(m => m.default || m)")%string)
     else
       svg2pngWasm <- readFile (asset "svg2png.wasm") ;;
       yogaWasm <- readFile (asset "yoga.wasm") ;;
       writeFile (indexFile options)
         (replace
            (replace indexContents svg2pngToken
               ("Buffer.from(" +:+ dq +:+ toBase64 svg2pngWasm +:+ dq +:+ ", "
                  +:+ dq +:+ "base64" +:+ dq +:+ ")")%string)
            yogaToken
            ("Buffer.from(" +:+ dq +:+ toBase64 yogaWasm +:+ dq +:+ ", "
               +:+ dq +:+ "base64" +:+ dq +:+ ")")%string)
   else ret tt)%js.

Definition compiled (options : NitroOptions) : M Files unit :=
  if Options.arrayIncludes Options.edgeProvidersSupported (VStr (preset options))
  then (copyAssets options ;; rewriteEntry options)%js
  else ret tt.

(** Where the copies go. *)
Definition copyTargets (options : NitroOptions) : list string :=
  [resolve [publicDir options; "inter-latin-ext-400-normal.woff"%string];
   resolve [publicDir options; "inter-latin-ext-700-normal.woff"%string];
   resolve [serverDir options; "svg2png.wasm"%string];
   resolve [serverDir options; "yoga.wasm"%string]].

End Hook.

(** A computation on the files that writes inside [targets] only. *)
Definition within {A} (targets : list string) (m : M Files A) : Prop :=
  forall fs p, p ∉ targets -> (m fs).2 !! p = fs !! p.

End Compiled.

(** ** More samples, for running the further properties *)

Module Sample2.
Import Sample.

(** Everything under [/private/] is switched off, [/private/open] is
    switched on again with a record of its own. *)
Definition privateAllRule : Obj := {[ "ogImage" := VBool false ]}.
Definition openRule : Obj := {[ "ogImage" := VObj {[ "width" := VNum 600 ]} ]}.

Definition openImports : Imports :=
  {| extractOgImageOptions := sampleExtract;
     matchAll := fun route =>
       (if startsWith "/private/" route then [privateAllRule] else [])
         ++ (if bool_decide (route = "/private/open"%string) then [openRule] else []);
     joinURL := sampleJoinURL;
     withBase := fun base host => (host +:+ base)%string;
     relative := fun _ to => to;
     roundPercent := fun k len =>
       (200 * (Z.of_nat k + 1) + Z.of_nat len) / (2 * Z.of_nat len) |}.

(** No browser can be created. *)
Definition noBrowserEnv : Env :=
  {| prerenderScreenshotsHook := fun queue => Returned queue;
     installExit := Some 0;
     previewHost := "http://localhost:3000";
     createBrowser := Returned false;
     fetch := fun _ _ _ => Returned staticPage;
     globalFetch := fun _ _ => Returned (VStr "<html></html>");
     screenshot := fun _ _ => Returned png;
     mkdirp := fun _ _ => Returned tt;
     writeFile := fun _ _ _ => Returned tt;
     jobStart := fun k => 1000 * Z.of_nat k;
     jobEnd := fun k => 1000 * Z.of_nat k + 250 |}.

Definition stub : Obj := {[ "route" := VStr "/stub" ]}.




(** Every call of the outside succeeds. *)
Definition fairEnv : Env :=
  {| prerenderScreenshotsHook := fun queue => Returned queue;
     installExit := Some 0;
     previewHost := "http://localhost:3000";
     createBrowser := Returned true;
     fetch := fun _ _ _ => Returned staticPage;
     globalFetch := fun _ _ => Returned (VStr "<div>Card</div>");
     screenshot := fun _ _ => Returned png;
     mkdirp := fun _ _ => Returned tt;
     writeFile := fun _ _ _ => Returned tt;
     jobStart := fun k => 1000 * Z.of_nat k;
     jobEnd := fun k => 1000 * Z.of_nat k + 250 |}.

(** A module hooked to [og-image:prerenderScreenshots] inserts a route-only
    item for [/private], the route the rules switch off. *)
Definition insertingEnv : Env :=
  {| prerenderScreenshotsHook := fun queue => Returned (queue ++ [{[ "route" := VStr "/private" ]}]);
     installExit := Some 0;
     previewHost := "http://localhost:3000";
     createBrowser := Returned true;
     fetch := fun _ _ _ => Returned staticPage;
     globalFetch := fun _ _ => Returned (VStr "<div>Card</div>");
     screenshot := fun _ _ => Returned png;
     mkdirp := fun _ _ => Returned tt;
     writeFile := fun _ _ _ => Returned tt;
     jobStart := fun k => 1000 * Z.of_nat k;
     jobEnd := fun k => 1000 * Z.of_nat k + 250 |}.

(** A job whose route is a number, as a route rule [ogImage: { route: 5 }]
    leaves it. *)
Definition jobNumbered : Obj := {[ "route" := VNum 5; "static" := VBool true ]}.

Definition stubWorld : World := setQueue [jobA; jobB; stub] initialWorld.

(** A build for the [netlify-edge] preset. *)
Definition netlifyEnv : Options.ProcessEnv :=
  {| Options.NUXT_PUBLIC_SITE_URL := VUndefined;
     Options.NUXT_SITE_URL := VStr "https://example.com";
     Options.NITRO_PRESET := VStr "netlify-edge";
     Options.NODE_ENV := VStr "production" |}.

Definition generateOptions : Options.NuxtOptions :=
  {| Options.dev := false;
     Options._generate := true;
     Options.preset := VUndefined;
     Options.publicSiteUrl := VUndefined;
     Options.runtimeSiteUrl := VUndefined |}.

Definition devOptions : Options.NuxtOptions :=
  {| Options.dev := true;
     Options._generate := false;
     Options.preset := VUndefined;
     Options.publicSiteUrl := VUndefined;
     Options.runtimeSiteUrl := VUndefined |}.

(** A font with a key, to be found in the storage. *)
Definition inter400 : Font.ResolvedFontConfig :=
  {| Font.name := "Inter"; Font.weight := 400; Font.path := None;
     Font.key := Some "Inter-400"; Font.data := None |}.

Definition fontStore : Font.Store :=
  {| Font.assets := {[ "Inter-400" := "AAEAAAA=" ]}; Font.requests := [] |}.

(** Paths joined with slashes, the first occurrence of a pattern replaced
    literally, and the text itself for its base64 form: enough to run the
    [compiled] hook. *)
Definition sampleResolve (parts : list string) : string := String.concat "/" parts.

Fixpoint replaceFirst (s pattern replacement : string) : string :=
  if String.prefix pattern s
  then (replacement +:+ String.substring (String.length pattern)
                          (String.length s - String.length pattern) s)%string
  else match s with
       | EmptyString => EmptyString
       | String c s' => String c (replaceFirst s' pattern replacement)
       end.

Definition cloudflare : Compiled.NitroOptions :=
  {| Compiled.preset := "cloudflare";
     Compiled.publicDir := "/out/public";
     Compiled.serverDir := "/out/server";
     Compiled.entryFileNames := VUndefined |}.

(** The two fonts and the entry file are there, the wasm assets are not. *)
Definition buildFiles : Compiled.Files :=
  {[ "./runtime/public-assets/inter-latin-ext-400-normal.woff" := "font 400";
     "./runtime/public-assets/inter-latin-ext-700-normal.woff" := "font 700";
     "/out/server/index.mjs" := "export default handler" ]}.

End Sample2.

(** ** Facts about [defu] *)

Lemma defuValue_obj (base defaults : Obj) :
  defuValue (VObj base) (VObj defaults) = VObj (defuObj base defaults).
Proof. reflexivity. Qed.

Lemma lookup_defuObj (base defaults : Obj) (k : string) :
  defuObj base defaults !! k =
    if protoKey k then defaults !! k else defuField (base !! k) (defaults !! k).
Proof.
  unfold defuObj.
  apply (map_fold_weak_ind
           (fun (r : Obj) (m : Obj) =>
              r !! k = if protoKey k then defaults !! k
                       else defuField (m !! k) (defaults !! k))).
  - rewrite lookup_empty. simpl. by destruct (protoKey k).
  - intros i x m r Hi IH. unfold defuStep.
    destruct (decide (i = k)) as [->|Hne].
    + rewrite lookup_insert_eq. rewrite Hi in IH.
      destruct (protoKey k) eqn:Hp; simpl; [done|].
      simpl in IH. destruct (nullish x) eqn:Hx; simpl; [done|].
      rewrite IH. destruct (defaults !! k); by rewrite lookup_insert_eq.
    + rewrite lookup_insert_ne by done.
      destruct (protoKey i || nullish x); [done|].
      destruct (r !! i); by rewrite lookup_insert_ne.
Qed.

Lemma defuObj_empty_l (defaults : Obj) : defuObj ∅ defaults = defaults.
Proof. unfold defuObj. apply map_fold_empty. Qed.

Lemma defuValue_not_mergeable (v d : JSValue) : mergeable v d = false -> defuValue v d = v.
Proof. by destruct v, d. Qed.

(** Where every field of the base replaces the default, [defu] is the plain
    left-biased union. *)
Lemma defuObj_overrides (base defaults : Obj) :
  overrides base defaults -> defuObj base defaults = base ∪ defaults.
Proof.
  intros Hover. apply map_eq. intros k.
  rewrite lookup_defuObj, lookup_union.
  destruct (base !! k) as [v|] eqn:Hk.
  - specialize (Hover k v Hk). unfold replaces in Hover. simpl in Hover.
    apply andb_true_iff in Hover as [[Hp Hn]%andb_true_iff Hm].
    apply negb_true_iff in Hp, Hn. rewrite Hp. simpl. rewrite Hn.
    destruct (defaults !! k) as [d|]; simpl; [|done].
    apply negb_true_iff in Hm. by rewrite defuValue_not_mergeable.
  - simpl. rewrite (left_id_L None _). by destruct (protoKey k).
Qed.

Lemma overrides_union (a b bottom : Obj) :
  overrides a bottom -> overrides b bottom -> overrides (a ∪ b) bottom.
Proof.
  intros Ha Hb k v Hk. apply lookup_union_Some_raw in Hk as [Hk|[_ Hk]]; eauto.
Qed.

(** The [ogImage] key of one [_defu] step. *)
Lemma ogImage_defuObj (acc rule : Obj) :
  defuObj acc rule !! "ogImage" = defuField (acc !! "ogImage") (rule !! "ogImage").
Proof. by rewrite lookup_defuObj. Qed.

(** Once the accumulated rules say [ogImage: false], no less specific rule
    changes it. *)
Lemma ogImage_false_kept (rules : list Obj) (acc : Obj) :
  acc !! "ogImage" = Some (VBool false) ->
  foldl defuObj acc rules !! "ogImage" = Some (VBool false).
Proof.
  revert acc. induction rules as [|rule rules IH]; intros acc Hacc; [done|].
  simpl. apply IH. rewrite ogImage_defuObj, Hacc. simpl.
  by destruct (rule !! "ogImage").
Qed.

Lemma typedRule_defuObj (acc rule : Obj) :
  typedRule acc -> typedRule rule -> typedRule (defuObj acc rule).
Proof.
  unfold typedRule. rewrite ogImage_defuObj.
  destruct (acc !! "ogImage") as [[| |[]| | | |a]|]; try done;
    by destruct (rule !! "ogImage") as [[| |[]| | | |r]|].
Qed.

(** One step of the fold adds the rule's overlay below what is there. *)
Lemma overlay_defuObj (acc rule : Obj) :
  typedRule acc -> typedRule rule -> overridesRule acc rule ->
  acc !! "ogImage" <> Some (VBool false) ->
  defuObj acc rule !! "ogImage" <> Some (VBool false) ->
  overlay (defuObj acc rule) = overlay acc ∪ overlay rule.
Proof.
  unfold typedRule, overridesRule, overlay, prop. rewrite ogImage_defuObj.
  destruct (acc !! "ogImage") as [[| |[]| | | |a]|] eqn:Ha; try done;
    destruct (rule !! "ogImage") as [[| |[]| | | |r]|] eqn:Hr; try done; simpl;
    intros _ _ Hover _ Hnf; try done;
    rewrite ?(right_id_L ∅ (∪)), ?(left_id_L ∅ (∪)); try done.
  change (defuObj a r = a ∪ r). by apply defuObj_overrides.
Qed.

(** What a step has accumulated still overrides a less specific rule. *)
Lemma overridesRule_defuObj (acc rule bottom : Obj) :
  typedRule acc -> typedRule rule ->
  overridesRule acc rule -> overridesRule acc bottom -> overridesRule rule bottom ->
  overridesRule (defuObj acc rule) bottom.
Proof.
  unfold typedRule, overridesRule. rewrite ogImage_defuObj.
  destruct (acc !! "ogImage") as [[| |[]| | | |a]|] eqn:Ha; try done;
    destruct (rule !! "ogImage") as [[| |[]| | | |r]|] eqn:Hr; try done; simpl;
    intros _ _ Hover Hacc Hrule; try done.
  destruct (bottom !! "ogImage") as [[| |[]| | | |b]|]; try done.
  change (overrides (defuObj a r) b).
  rewrite defuObj_overrides by done. by apply overrides_union.
Qed.

(** Folding layered rules, most specific first, stacks their overlays with
    the leftmost winning, unless the fold ends on [false]. *)
Lemma overlay_foldl_defuObj (rules : list Obj) (acc : Obj) :
  typedRule acc -> Forall typedRule rules ->
  Forall (overridesRule acc) rules -> layered rules ->
  foldl defuObj acc rules !! "ogImage" <> Some (VBool false) ->
  overlay (foldl defuObj acc rules) = foldr (∪) ∅ (overlay <$> acc :: rules).
Proof.
  revert acc. induction rules as [|rule rules IH]; intros acc Hacc Hrules Hover Hlay Hnf.
  - simpl. by rewrite (right_id_L ∅ (∪)).
  - apply Forall_cons in Hrules as [Hrule Hrules].
    apply Forall_cons in Hover as [Hover1 Hover].
    destruct Hlay as [Hlay1 Hlay]. simpl in *.
    assert (acc !! "ogImage" <> Some (VBool false)) as Hacc'.
    { intros Hf. apply Hnf. apply ogImage_false_kept.
      rewrite ogImage_defuObj, Hf. simpl. by destruct (rule !! "ogImage"). }
    assert (defuObj acc rule !! "ogImage" <> Some (VBool false)) as Hstep.
    { intros Hf. apply Hnf. by apply ogImage_false_kept. }
    rewrite IH; try done.
    + simpl. rewrite overlay_defuObj by done. by rewrite (assoc_L (∪)).
    + by apply typedRule_defuObj.
    + rewrite Forall_forall in Hover, Hlay1. apply Forall_forall. intros bottom Hin.
      apply overridesRule_defuObj; auto.
Qed.

Lemma typedRuleb_sound (rules : list Obj) :
  forallb typedRuleb rules = true -> Forall typedRule rules.
Proof.
  induction rules as [|rule rules IH]; simpl; [constructor|].
  intros [Hr Hrs]%andb_true_iff. constructor; [|auto].
  unfold typedRuleb in Hr. unfold typedRule.
  by destruct (rule !! "ogImage") as [[| |[]| | | |o]|].
Qed.

Lemma overridesRuleb_sound (top bottom : Obj) :
  overridesRuleb top bottom = true -> overridesRule top bottom.
Proof.
  unfold overridesRuleb, overridesRule.
  destruct (top !! "ogImage") as [[| | | | | |t]|]; try done.
  destruct (bottom !! "ogImage") as [[| | | | | |b]|]; try done.
  intros Hb. by apply bool_decide_eq_true in Hb.
Qed.

Lemma layeredb_sound (rules : list Obj) : layeredb rules = true -> layered rules.
Proof.
  induction rules as [|top rest IH]; simpl; [done|].
  intros [Hall Hrest]%andb_true_iff. split; [|auto].
  apply Forall_forall. intros bottom Hin. apply overridesRuleb_sound.
  rewrite forallb_forall in Hall. apply Hall. by apply list_elem_of_In.
Qed.

Lemma foldr_union_base (xs : list Obj) (z : Obj) :
  foldr (∪) z xs = foldr (∪) ∅ xs ∪ z.
Proof.
  induction xs as [|x xs IH]; simpl.
  - by rewrite (left_id_L ∅ (∪)).
  - by rewrite IH, (assoc_L (∪)).
Qed.

Lemma shallowMerge_foldl (layers : list Obj) (base : Obj) :
  foldl (fun acc o => o ∪ acc) base layers = foldr (∪) ∅ (reverse layers) ∪ base.
Proof.
  revert base. induction layers as [|o layers IH]; intros base; simpl.
  - by rewrite (left_id_L ∅ (∪)).
  - rewrite IH, reverse_cons, foldr_app. simpl.
    rewrite (foldr_union_base _ (o ∪ ∅)), (right_id_L ∅ (∪)).
    by rewrite (assoc_L (∪)).
Qed.

(** ** The collection phase *)

Section CollectionFacts.
Context `{Imports}.

Lemma routeRulesOf_foldl (route : string) :
  routeRulesOf route = foldl defuObj ∅ (reverse (matchAll route)).
Proof. unfold routeRulesOf, defu. simpl. by rewrite defuObj_empty_l. Qed.

Lemma isFalse_prop (k : string) (o : Obj) :
  isFalse (prop k o) = false <-> o !! k <> Some (VBool false).
Proof.
  unfold prop. destruct (o !! k) as [[| |[]| | | |]|]; simpl; split; congruence.
Qed.

(** What [resolveRoute] returns when it returns an entry. *)
Lemma resolveRoute_Some (route : string) (contents : option string) (entry : Obj) :
  resolveRoute route contents = Some entry ->
  exists html,
    contents = Some html /\
    includes "." route = false /\
    truthy (extractOgImageOptions html) = true /\
    routeRulesOf route !! "ogImage" <> Some (VBool false) /\
    entry = makeEntry route (extractOgImageOptions html) (routeRulesOf route).
Proof.
  unfold resolveRoute. destruct (includes "." route); [done|].
  destruct contents as [html|]; [|done].
  destruct (bool_decide (html = ""%string)); [done|].
  destruct (truthy (extractOgImageOptions html)) eqn:Ht; [|done].
  destruct (isFalse (prop "ogImage" (routeRulesOf route))) eqn:Hf; [done|].
  simpl. intros [= <-]. exists html. by rewrite <- isFalse_prop.
Qed.

(** On rules typed as declared and layered, the entry the hook builds,
    over the defaults, is the shallow merge of the layers. *)
Lemma entry_shallow_merge (config : Config) (route html : string) (entry : Obj) :
  Forall typedRule (matchAll route) ->
  layered (reverse (matchAll route)) ->
  resolveRoute route (Some html) = Some entry ->
  entry ∪ defaults config =
    specResolve
      (spread (extractOgImageOptions html)
         ∪ derivedFields route (extractOgImageOptions html))
      (overlay <$> matchAll route)
      (defaults config).
Proof.
  intros Htyped Hlay Hres.
  apply resolveRoute_Some in Hres as (html' & [= <-] & _ & _ & Hnf & ->).
  unfold specResolve, shallowMerge, makeEntry.
  fold (overlay (routeRulesOf route)).
  rewrite routeRulesOf_foldl in *.
  assert (typedRule ∅) as Hempty by (unfold typedRule; by rewrite lookup_empty).
  assert (Forall (overridesRule ∅) (reverse (matchAll route))) as Hover.
  { apply Forall_forall. intros bottom _. unfold overridesRule. by rewrite lookup_empty. }
  apply Forall_reverse in Htyped.
  rewrite (overlay_foldl_defuObj _ ∅ Hempty Htyped Hover Hlay Hnf).
  rewrite shallowMerge_foldl. simpl.
  rewrite !reverse_cons, <- !(assoc_L (++)), foldr_app. simpl.
  rewrite fmap_reverse.
  unfold overlay at 1, prop. rewrite lookup_empty. simpl.
  rewrite !(right_id_L ∅ (∪)), (left_id_L ∅ (∪)).
  unfold derivedFields.
  rewrite (foldr_union_base _ (_ ∪ defaults config)).
  by rewrite !(assoc_L (∪)).
Qed.

(** C2 (as amended).  When the most specific rule matching a route (the
    last one the matcher lists) says [ogImage: false], the
    [prerender:generate] hook builds no entry and enqueues nothing (it
    leaves the world as it is), whatever the extractor finds in the page. *)
Theorem disabled_route_is_skipped (generate : bool) (route : string)
    (contents : option string) (w : World) (rules : list Obj) (rule : Obj) :
  matchAll route = rules ++ [rule] ->
  rule !! "ogImage" = Some (VBool false) ->
  resolveRoute route contents = None /\
  prerenderGenerate generate route contents w = w.
Proof.
  intros Hmatch Hrule.
  assert (resolveRoute route contents = None) as Hnone.
  { unfold resolveRoute. destruct (includes "." route); [done|].
    destruct contents as [html|]; [|done].
    destruct (bool_decide (html = ""%string)); [done|].
    assert (prop "ogImage" (routeRulesOf route) = VBool false) as ->.
    { unfold prop. rewrite routeRulesOf_foldl, Hmatch, reverse_app. simpl.
      rewrite defuObj_empty_l. by rewrite ogImage_false_kept. }
    simpl. by rewrite orb_true_r. }
  split; [done|]. unfold prerenderGenerate. by rewrite Hnone.
Qed.

(** C6.  An entry the hook resolves is appended to the queue exactly when
    its provider is ['browser'] and the build is a full static export or
    the entry is marked static; otherwise the queue is left as it is. *)
Theorem enqueue_iff_browser_eligible (generate : bool) (route : string)
    (contents : option string) (w : World) (entry : Obj) :
  resolveRoute route contents = Some entry ->
  (prop "provider" entry = VStr "browser" /\
   (generate = true \/ truthy (prop "static" entry) = true) ->
   screenshotQueue (prerenderGenerate generate route contents w)
     = screenshotQueue w ++ [entry]) /\
  (~ (prop "provider" entry = VStr "browser" /\
      (generate = true \/ truthy (prop "static" entry) = true)) ->
   prerenderGenerate generate route contents w = w).
Proof.
  intros Hres. unfold prerenderGenerate, eligible. rewrite Hres. split.
  - intros [-> Hor]. simpl. rewrite andb_true_r.
    destruct Hor as [-> | ->]; [done|]. by rewrite orb_true_r.
  - intros Hnot.
    destruct ((generate || truthy (prop "static" entry))
              && isStr "browser" (prop "provider" entry)) eqn:He; [|done].
    exfalso. apply Hnot. apply andb_true_iff in He as [Hg Hp].
    apply orb_true_iff in Hg. split; [|done].
    destruct (prop "provider" entry); try done. simpl in Hp.
    apply bool_decide_eq_true in Hp. by subst.
Qed.

(** C7.  A route with a dot never reaches extraction or resolution in the
    [prerender:generate] hook, and a render whose URL has a dot or is an
    island request never reaches extraction in the [render:html] plugin: the
    cache, the queue and the response are left as they are, for every
    extractor and every markup. *)
Theorem dotted_and_island_are_ignored (generate prerender forcePrerender : bool)
    (route : string) (contents : option string) (now : Z) (head : list string)
    (event : H3Event) (w : World) :
  (includes "." route = true ->
   resolveRoute route contents = None /\
   prerenderGenerate generate route contents w = w) /\
  (includes "." (url event) = true \/ startsWith "/__nuxt_island/" (url event) = true ->
   renderHtml prerender forcePrerender now head event w = (w, event)).
Proof.
  split.
  - intros Hdot. unfold prerenderGenerate, resolveRoute. by rewrite Hdot.
  - intros Hskip. unfold renderHtml. destruct prerender; [|done]. simpl.
    destruct Hskip as [-> | ->]; [done|]. by rewrite orb_true_r.
Qed.

(** C5.  The plugin writes at most one cache entry per render, under the
    request URL, and its expiry is the time of the write plus 3600000 ms when
    the extracted options are marked static and plus 5000 ms otherwise; the
    first is the larger. *)
Theorem cache_entry_ttl (prerender forcePrerender : bool) (now : Z)
    (head : list string) (event : H3Event) (w : World) :
  let options := extractOgImageOptions (joinLines LF head) in
  let ttl := if truthy (field "static" options) then 3600000 else 5000 in
  optionCacheStorage (renderHtml prerender forcePrerender now head event w).1
    = (if prerender && fullPage event && truthy options
       then <[url event := {| value := options; expiresAt := now + ttl |}]>
              (optionCacheStorage w)
       else optionCacheStorage w)
  /\ staticTTL = 3600000 /\ dynamicTTL = 5000 /\ dynamicTTL < staticTTL.
Proof.
  simpl. split; [|done].
  unfold renderHtml, fullPage. destruct prerender; [|done]. simpl.
  destruct (includes "." (url event) || startsWith "/__nuxt_island/" (url event));
    [done|]. simpl.
  destruct (truthy (extractOgImageOptions (joinLines LF head))); [|done]. simpl.
  by destruct (_ && _).
Qed.

(** C10.  On a prerendered full page with extracted options, the plugin
    appends the header [x-nitro-prerender], holding the URL joined with
    [/__og_image__/og.png], exactly when the provider is ['satori'] and the
    options are static or the build forces prerendering; in every other case
    the response headers are left as they are. *)
Theorem satori_prerender_header (prerender forcePrerender : bool) (now : Z)
    (head : list string) (event : H3Event) (w : World) :
  let options := extractOgImageOptions (joinLines LF head) in
  responseHeaders (renderHtml prerender forcePrerender now head event w).2
    = (if prerender && fullPage event && truthy options
          && isStr "satori" (field "provider" options)
          && (forcePrerender || truthy (field "static" options))
       then responseHeaders event
              ++ [("x-nitro-prerender"%string,
                   joinURL [VStr (url event); VStr "/__og_image__/og.png"])]
       else responseHeaders event).
Proof.
  simpl. unfold renderHtml, fullPage. destruct prerender; [|done]. simpl.
  destruct (includes "." (url event) || startsWith "/__nuxt_island/" (url event));
    [done|]. simpl.
  destruct (truthy (extractOgImageOptions (joinLines LF head))); [|done]. simpl.
  rewrite andb_comm. by destruct (_ && _).
Qed.

End CollectionFacts.

(** ** The capture pass *)

Section CaptureFacts.
Context `{Imports} (config : Config) (env : Env).

Lemma progressLines_app (a b : list Event) :
  progressLines (a ++ b) = progressLines a ++ progressLines b.
Proof. apply omap_app. Qed.

Lemma screenshotCalls_app (a b : list Event) :
  screenshotCalls (a ++ b) = screenshotCalls a ++ screenshotCalls b.
Proof. apply omap_app. Qed.

(** A route that can be joined: the job is its guarded part and its
    progress line, on the two paths. *)
Lemma captureJob_joinable (host : string) (len k : nat) (entry : Obj) (w : World) :
  joinable (prop "route" entry) = true ->
  captureJob config env host len k entry w =
    bind (captureImage config env host k entry
            (jobDirname config entry) (jobFilename config entry))
         (fun hasError =>
            log (LoggerLog (progressLine config env len k (jobFilename config entry) hasError)))
         w.
Proof. intros Hjoin. unfold captureJob, joined. simpl. by rewrite Hjoin. Qed.

(** A route that cannot be joined: the job throws before anything is done. *)
Lemma captureJob_unjoinable (host : string) (len k : nat) (entry : Obj) (w : World) :
  joinable (prop "route" entry) = false ->
  captureJob config env host len k entry w
    = (Thrown (Error "input.startsWith is not a function"), w).
Proof. intros Hjoin. unfold captureJob, joined. simpl. by rewrite Hjoin. Qed.

(** One job whose paths join: it does not throw, logs one progress line,
    calls [screenshot] once and writes its image when its own capture and
    write succeed. *)
Lemma captureJob_run (host : string) (len k : nat) (entry : Obj) (w : World) :
  joinable (prop "route" entry) = true ->
  exists w',
    captureJob config env host len k entry w = (Returned tt, w') /\
    progressLines (trace w') =
      progressLines (trace w)
        ++ [progressLine config env len k (jobFilename config entry)
              (jobFailed config env host k entry)] /\
    screenshotCalls (trace w') =
      screenshotCalls (trace w) ++ [(k, screenshotOptions config entry host)] /\
    written w' = written w ++ jobWritten config env host k entry /\
    screenshotQueue w' = screenshotQueue w /\
    browserOpen w' = browserOpen w /\
    previewRunning w' = previewRunning w.
Proof.
  intros Hjoin. rewrite captureJob_joinable by done.
  unfold captureImage, jobFailed, jobWritten, jobImage,
    call, log, bind, tryCatch, modify, settle, ret.
  simpl.
  destruct (screenshot env k (screenshotOptions config entry host)) as [buf|e]; simpl.
  - destruct (mkdirp env k (jobDirname config entry)) as [[]|e']; simpl;
      destruct (writeFile env k (jobFilename config entry) buf) as [[]|e'']; simpl;
      eexists; (split; [reflexivity|]); simpl;
      rewrite ?progressLines_app, ?screenshotCalls_app; simpl;
      rewrite ?app_nil_r; by rewrite <- ?(assoc_L (++)).
  - eexists; (split; [reflexivity|]); simpl.
    rewrite ?progressLines_app, ?screenshotCalls_app; simpl.
    rewrite ?app_nil_r. by rewrite <- ?(assoc_L (++)).
Qed.

Lemma forEach_captureJob (host : string) (len : nat) (queue : list Obj) (i : nat) (w : World) :
  Forall (fun entry => joinable (prop "route" entry) = true) queue ->
  exists w',
    forEach (captureJob config env host len) i queue w = (Returned tt, w') /\
    progressLines (trace w') =
      progressLines (trace w)
        ++ imap (fun k entry =>
                   progressLine config env len (i + k) (jobFilename config entry)
                     (jobFailed config env host (i + k) entry)) queue /\
    screenshotCalls (trace w') =
      screenshotCalls (trace w)
        ++ imap (fun k entry => ((i + k)%nat, screenshotOptions config entry host)) queue /\
    written w' =
      written w
        ++ mjoin (imap (fun k entry => jobWritten config env host (i + k) entry) queue) /\
    screenshotQueue w' = screenshotQueue w /\
    browserOpen w' = browserOpen w /\
    previewRunning w' = previewRunning w.
Proof.
  revert i w. induction queue as [|entry queue IH]; intros i w Hall.
  - exists w. simpl. by rewrite !app_nil_r.
  - apply Forall_cons in Hall as [Hentry Hall].
    destruct (captureJob_run host len i entry w Hentry)
      as (w1 & Hrun & Hp1 & Hs1 & Hw1 & Hq1 & Hb1 & Hv1).
    destruct (IH (S i) w1 Hall) as (w2 & Hrest & Hp2 & Hs2 & Hw2 & Hq2 & Hb2 & Hv2).
    exists w2. simpl. unfold bind at 1. rewrite Hrun, Hrest.
    rewrite Hp2, Hp1, Hs2, Hs1, Hw2, Hw1, Hq2, Hq1, Hb2, Hb1, Hv2, Hv1.
    rewrite !Nat.add_0_r, <- !(assoc_L (++)). simpl.
    repeat split; do 2 f_equal; try (apply imap_ext; intros; simpl);
      rewrite ?Nat.add_succ_r; try done.
    f_equal. apply imap_ext. intros. simpl. by rewrite Nat.add_succ_r.
Qed.

(** Any queue: the loop runs the jobs up to the first whose route cannot be
    joined, and stops there.  The queue itself is never touched, and what is
    written is what the jobs that ran wrote. *)
Lemma forEach_captureJob_prefix (host : string) (len : nat) (queue : list Obj)
    (i : nat) (w : World) :
  exists n,
    (n <= length queue)%nat /\
    written (forEach (captureJob config env host len) i queue w).2 =
      written w
        ++ mjoin (imap (fun k entry => jobWritten config env host (i + k) entry)
                    (take n queue)) /\
    screenshotQueue (forEach (captureJob config env host len) i queue w).2
      = screenshotQueue w.
Proof.
  revert i w. induction queue as [|entry queue IH]; intros i w.
  - exists 0%nat. simpl. by rewrite app_nil_r.
  - destruct (joinable (prop "route" entry)) eqn:Hjoin.
    + destruct (captureJob_run host len i entry w Hjoin)
        as (w1 & Hrun & _ & _ & Hw1 & Hq1 & _).
      destruct (IH (S i) w1) as (n & Hn & Hw2 & Hq2).
      exists (S n). simpl. unfold bind. rewrite Hrun.
      rewrite Hw2, Hq2, Hw1, Hq1, Nat.add_0_r, <- (assoc_L (++)).
      split; [lia|]. split; [|done]. do 3 f_equal.
      apply imap_ext. intros. simpl. by rewrite Nat.add_succ_r.
    + exists 0%nat. simpl. unfold bind. rewrite captureJob_unjoinable by done.
      simpl. split; [lia|]. by rewrite app_nil_r.
Qed.

(** C3 (as amended).  On a queue whose routes can all be joined into output
    paths, the capture pass does not throw.  It logs exactly one progress
    line per queued job, in queue order, each with the job's elapsed time and
    the percentage reached, red exactly when the job failed; it calls
    [screenshot] once for every job, whatever happened to the jobs before;
    and the images written are those of the jobs whose own capture and write
    succeeded. *)
Theorem capture_pass_isolates_failures (host : string) (queue : list Obj) (w : World) :
  Forall (fun entry => joinable (prop "route" entry) = true) queue ->
  exists w',
    capturePass config env host queue w = (Returned tt, w') /\
    progressLines (trace w') =
      progressLines (trace w)
        ++ imap (fun k entry =>
                   {| red := jobFailed config env host k entry;
                      lastConnector := bool_decide (k = (length queue - 1)%nat);
                      relPath := relative (publicDir config) (jobFilename config entry);
                      generateTimeMS := jobEnd env k - jobStart env k;
                      percent := roundPercent k (length queue) |}) queue /\
    screenshotCalls (trace w') =
      screenshotCalls (trace w)
        ++ imap (fun k entry => (k, screenshotOptions config entry host)) queue /\
    written w' =
      written w ++ mjoin (imap (fun k entry => jobWritten config env host k entry) queue) /\
    (forall k entry imgBuffer,
       queue !! k = Some entry ->
       jobImage config env host k entry = Some imgBuffer ->
       (jobFilename config entry, imgBuffer) ∈ written w').
Proof.
  intros Hjoin.
  destruct (forEach_captureJob host (length queue) queue 0 w Hjoin)
    as (w' & Hrun & Hp & Hs & Hw & _).
  exists w'. repeat split; try done.
  intros k entry imgBuffer Hk Himg. rewrite Hw.
  apply elem_of_app. right. apply list_elem_of_join.
  exists (jobWritten config env host k entry). split.
  - unfold jobWritten. rewrite Himg. apply list_elem_of_singleton. done.
  - apply list_elem_of_lookup. exists k. rewrite list_lookup_imap, Hk. done.
Qed.

End CaptureFacts.

(** ** The drain as a whole *)

Lemma after_refl (w : World) : after w w.
Proof. split; [|done]. exists []. by rewrite app_nil_r. Qed.

Lemma after_trans (w1 w2 w3 : World) : after w1 w2 -> after w2 w3 -> after w1 w3.
Proof.
  intros ([r1 H1] & Hb1 & Hp1) ([r2 H2] & Hb2 & Hp2). split; [|split; congruence].
  exists (r1 ++ r2). by rewrite H2, H1, (assoc_L (++)).
Qed.

Lemma quiet_ret {A} (a : A) : quiet (ret a).
Proof. intros w. apply after_refl. Qed.

Lemma quiet_throw {A} (e : Exn) : quiet (@throw World A e).
Proof. intros w. apply after_refl. Qed.

Lemma quiet_settle {A} (o : Outcome A) : quiet (settle o).
Proof. intros w. apply after_refl. Qed.

Lemma quiet_gets {A} (f : World -> A) : quiet (gets f).
Proof. intros w. apply after_refl. Qed.

Lemma quiet_log (e : Event) : quiet (modify (emit e)).
Proof. intros w. split; [|done]. by exists [e]. Qed.

Lemma quiet_setQueue (f : World -> list Obj) : quiet (modify (fun w => setQueue (f w) w)).
Proof. intros w. split; [|done]. exists []. simpl. by rewrite app_nil_r. Qed.

Lemma quiet_addWritten (file : string) (b : Buffer) : quiet (modify (addWritten file b)).
Proof. intros w. split; [|done]. exists []. simpl. by rewrite app_nil_r. Qed.

Lemma quiet_bind {A B} (m : M World A) (f : A -> M World B) :
  quiet m -> (forall a, quiet (f a)) -> quiet (bind m f).
Proof.
  intros Hm Hf w. unfold bind. specialize (Hm w).
  destruct (m w) as [[a|e] w1]; simpl in *; [|done].
  eapply after_trans; [done|]. apply Hf.
Qed.

Lemma quiet_tryCatch {A} (m : M World A) (h : Exn -> M World A) :
  quiet m -> (forall e, quiet (h e)) -> quiet (tryCatch m h).
Proof.
  intros Hm Hh w. unfold tryCatch. specialize (Hm w).
  destruct (m w) as [[a|e] w1]; simpl in *; [done|].
  eapply after_trans; [done|]. apply Hh.
Qed.

Lemma quiet_forEach {A} (body : nat -> A -> M World unit) (l : list A) (i : nat) :
  (forall k x, quiet (body k x)) -> quiet (forEach body i l).
Proof.
  intros Hbody. revert i. induction l as [|x l IH]; intros i; simpl.
  - apply quiet_ret.
  - apply quiet_bind; [apply Hbody|]. intros _. apply IH.
Qed.

Create HintDb quiet.
#[local] Hint Resolve quiet_ret quiet_throw quiet_settle quiet_gets quiet_log
  quiet_setQueue quiet_addWritten quiet_bind quiet_tryCatch quiet_forEach : quiet.

Lemma bind_ret {W A B} (a : A) (k : A -> M W B) (w : W) : bind (ret a) k w = k a w.
Proof. reflexivity. Qed.

Lemma bind_modify {W B} (f : W -> W) (k : unit -> M W B) (w : W) :
  bind (modify f) k w = k tt (f w).
Proof. reflexivity. Qed.

Lemma bind_log {B} (e : Event) (k : unit -> M World B) (w : World) :
  bind (log e) k w = k tt (emit e w).
Proof. reflexivity. Qed.

Section DrainFacts.
Context `{Imports} (config : Config) (env : Env).

Lemma quiet_call {A} (e : Event) (o : Outcome A) : quiet (call e o).
Proof. unfold call, log. auto with quiet. Qed.

Lemma quiet_completeEntry (host : string) (i : nat) (entry : Obj) :
  quiet (completeEntry config env host i entry).
Proof.
  unfold completeEntry.
  apply quiet_bind.
  - destruct (truthy (prop "route" entry) && bool_decide (size entry = 1%nat));
      [|auto with quiet].
    apply quiet_bind; [apply quiet_call|]. intros html.
    destruct (prop "route" entry); auto with quiet.
    destruct (nullish (extractOgImageOptions html)); auto with quiet.
  - intros entry1. apply quiet_bind.
    + destruct (truthy (prop "component" entry1)); [|auto with quiet].
      apply quiet_bind; [apply quiet_call|]. auto with quiet.
    + intros entry2. apply (quiet_setQueue (fun w => <[i:=entry2]> (screenshotQueue w))).
Qed.

Lemma quiet_joined (segments : list JSValue) : quiet (joined segments).
Proof. unfold joined. destruct (forallb joinable segments); auto with quiet. Qed.

Lemma quiet_captureJob (host : string) (len k : nat) (entry : Obj) :
  quiet (captureJob config env host len k entry).
Proof.
  unfold captureJob, captureImage, log.
  repeat (first [apply quiet_bind; [|intros ?] | apply quiet_tryCatch; [|intros ?]
                | apply quiet_call | apply quiet_joined | solve [auto with quiet]]).
Qed.

Lemma quiet_passes (host : string) : quiet (passes config env host).
Proof.
  unfold passes, capturePass, log.
  apply quiet_bind; [auto with quiet|]. intros queue.
  apply quiet_bind; [auto with quiet|]. intros _.
  apply quiet_bind; [apply quiet_forEach, quiet_completeEntry|]. intros _.
  apply quiet_bind; [auto with quiet|]. intros queue'.
  apply quiet_forEach, quiet_captureJob.
Qed.

(** The [try] block starts by asking for a browser; whatever follows, and
    however it ends, the trace keeps that call, and the browser is open
    afterwards exactly when it was before or one was obtained. *)
Lemma drainBody_run (w : World) :
  exists rest,
    trace (drainBody config env w).2 = trace w ++ [CreateBrowser] ++ rest /\
    previewRunning (drainBody config env w).2 = previewRunning w /\
    browserOpen (drainBody config env w).2 =
      match createBrowser env with
      | Returned true => true
      | _ => browserOpen w
      end.
Proof.
  unfold drainBody, call, log, bind, modify, settle.
  destruct (createBrowser env) as [[]|e]; simpl.
  - destruct (quiet_passes (previewHost env) (setBrowser true (emit CreateBrowser w)))
      as ([rest Hrest] & Hb & Hp).
    destruct (passes config env (previewHost env) (setBrowser true (emit CreateBrowser w)))
      as [[[]|e] w1]; simpl in *;
      exists rest; by rewrite Hrest, Hb, Hp, <- (assoc_L (++)).
  - exists [LoggerLogRed "Failed to create a browser to create og:images."].
    by rewrite <- (assoc_L (++)).
  - by exists [].
Qed.

(** The [try]/[catch]/[finally] statement around any body: it returns, the
    browser is closed if it was open when the body ended, and the preview
    server is killed last. *)
Lemma guarded_run (body : M World unit) (w : World) :
  exists w' logged,
    tryFinally (tryCatch body (fun e => log (ConsoleError e))) teardown w
      = (Returned tt, w') /\
    browserOpen w' = false /\
    previewRunning w' = false /\
    screenshotQueue w' = screenshotQueue (body w).2 /\
    trace w' =
      trace (body w).2 ++ logged
        ++ (if browserOpen (body w).2 then [BrowserClose] else []) ++ [PreviewKill].
Proof.
  unfold tryFinally, tryCatch, teardown, log, bind, modify, gets, ret.
  destruct (body w) as [[[]|e] w1]; simpl.
  - destruct (browserOpen w1) eqn:Hb; simpl; eexists; exists [];
      (split; [reflexivity|]); simpl; rewrite <- ?(assoc_L (++)); by repeat split.
  - destruct (browserOpen w1) eqn:Hb; simpl; eexists; exists [ConsoleError e];
      (split; [reflexivity|]); simpl; rewrite <- ?(assoc_L (++)); by repeat split.
Qed.

Lemma drainQueue_run (w : World) :
  exists w' middle,
    drainQueue config env w = (Returned tt, w') /\
    browserOpen w' = false /\
    previewRunning w' = false /\
    screenshotQueue w' = [] /\
    trace w' =
      trace w
        ++ [LoggerInfo "Ensuring chromium install for og:image generation..."; SpawnInstall]
        ++ installLog (installExit env)
        ++ [SpawnServe (publicDir config); CreateBrowser]
        ++ middle
        ++ (if browserToClose env w then [BrowserClose] else []) ++ [PreviewKill].
Proof.
  unfold drainQueue, browserToClose.
  set (w1 := setPreview true
          (emit (SpawnServe (publicDir config))
             (foldl (fun acc e => emit e acc)
                (emit SpawnInstall
                   (emit (LoggerInfo "Ensuring chromium install for og:image generation...") w))
                (installLog (installExit env))))).
  destruct (guarded_run (drainBody config env) w1)
    as (w2 & logged & Hrun & Hb & Hp & _ & Htr).
  destruct (drainBody_run w1) as (rest & Hrest & _ & Hopen).
  exists (setQueue [] w2), (rest ++ logged).
  assert (drainQueue config env w = (Returned tt, setQueue [] w2)) as Hdrain.
  { subst w1. unfold drainQueue. rewrite !bind_log.
    destruct (installExit env) as [[| |]|]; simpl in Hrun;
      rewrite ?bind_ret, ?bind_log, bind_modify; unfold bind at 1;
      by rewrite Hrun. }
  unfold drainQueue in Hdrain. rewrite Hdrain. simpl.
  rewrite Htr, Hrest, Hopen. subst w1. simpl.
  repeat split; try done.
  destruct (installExit env) as [[| |]|]; simpl; by rewrite <- !(assoc_L (++)).
Qed.

(** C4.  Every drain that gets past the empty-queue check returns with the
    browser closed, the preview server killed and the queue empty, whatever
    the launch of the browser, the completion pass and the capture pass did,
    thrown exceptions included; the kill is the last thing it does, and the
    browser, if there was one, is closed just before. *)
Theorem teardown_always_runs (w : World) (queue : list Obj) :
  prerenderScreenshotsHook env (screenshotQueue w) = Returned queue ->
  queue <> [] ->
  exists w' before,
    captureScreenshots config env w = (Returned tt, w') /\
    browserOpen w' = false /\
    previewRunning w' = false /\
    screenshotQueue w' = [] /\
    trace w' =
      before ++ (if browserToClose env w then [BrowserClose] else []) ++ [PreviewKill].
Proof.
  intros Hhook Hne.
  destruct (drainQueue_run (setQueue queue (emit (CallHook (screenshotQueue w)) w)))
    as (w' & middle & Hrun & Hb & Hp & Hq & Htr).
  exists w'.
  exists (trace w
            ++ [CallHook (screenshotQueue w);
                LoggerInfo "Ensuring chromium install for og:image generation...";
                SpawnInstall]
            ++ installLog (installExit env)
            ++ [SpawnServe (publicDir config); CreateBrowser] ++ middle).
  unfold captureScreenshots, call, log, bind, modify, gets, settle. simpl.
  rewrite Hhook. simpl.
  destruct queue as [|entry queue]; [done|]. simpl.
  rewrite Hrun. repeat split; try done.
  rewrite Htr. unfold browserToClose. simpl.
  repeat (rewrite <- ?(assoc_L (++)); simpl). done.
Qed.

(** C9.  Whatever the exit code of the installer, a drain with a non-empty
    queue goes on to spawn the preview server and to ask for a browser, and
    returns; the error line is logged exactly when the code is not 0. *)
Theorem installer_failure_is_not_fatal (w : World) (queue : list Obj) :
  prerenderScreenshotsHook env (screenshotQueue w) = Returned queue ->
  queue <> [] ->
  exists w' rest,
    captureScreenshots config env w = (Returned tt, w') /\
    trace w' =
      trace w
        ++ [CallHook (screenshotQueue w);
            LoggerInfo "Ensuring chromium install for og:image generation...";
            SpawnInstall]
        ++ (match installExit env with
            | Some 0 => []
            | _ => [LoggerError installMessage]
            end)
        ++ [SpawnServe (publicDir config); CreateBrowser]
        ++ rest.
Proof.
  intros Hhook Hne.
  destruct (drainQueue_run (setQueue queue (emit (CallHook (screenshotQueue w)) w)))
    as (w' & middle & Hrun & Hb & Hp & Hq & Htr).
  exists w'. eexists.
  unfold captureScreenshots, call, log, bind, modify, gets, settle. simpl.
  rewrite Hhook. simpl.
  destruct queue as [|entry queue]; [done|]. simpl.
  rewrite Hrun. split; [done|].
  rewrite Htr. unfold installLog. simpl.
  rewrite <- !(assoc_L (++)). simpl. reflexivity.
Qed.

End DrainFacts.

(** ** The font loader *)

Section FontFacts.
Variable fromBase64 : string -> Buffer.
Variable nitroOrigin : string.
Variable fetch : Font.Request -> Outcome Buffer.
Variable numberToString : Z -> string.

(** C8.  A font that carries its bytes is returned as it is, with no
    storage read and no request.  Otherwise, when the storage holds the
    font's key, the font is returned with the decoded base64 text as its
    data, with no request.  Otherwise one request is sent, to the configured
    local path if there is one and else to the font endpoint named by family
    and weight, and the font is returned with the fetched bytes as its data
    (or the failure is passed on).  The storage is never written. *)
Theorem loadFont_resolution_order (font : Font.ResolvedFontConfig) (s : Font.Store) :
  let loaded (bytes : Buffer) :=
    {| Font.name := Font.name font; Font.weight := Font.weight font;
       Font.path := Font.path font; Font.key := Font.key font;
       Font.data := Some bytes |} in
  let request :=
    match Font.given (Font.path font) with
    | Some p => {| Font.address := p; Font.baseURL := Some nitroOrigin; Font.query := None |}
    | None =>
        {| Font.address :=
             ("/__og-image__/font/" +:+ Font.name font +:+ "/"
                +:+ numberToString (Font.weight font) +:+ ".ttf")%string;
           Font.baseURL := None;
           Font.query := Some font |}
    end in
  Font.loadFont fromBase64 nitroOrigin fetch numberToString font s =
    match Font.data font with
    | Some _ => (Returned font, s)
    | None =>
        match Font.cachedText font s with
        | Some text => (Returned (loaded (fromBase64 text)), s)
        | None =>
            (match fetch request with
             | Returned bytes => Returned (loaded bytes)
             | Thrown e => Thrown e
             end,
             {| Font.assets := Font.assets s;
                Font.requests := Font.requests s ++ [request] |})
        end
    end
  /\ Font.assets (Font.loadFont fromBase64 nitroOrigin fetch numberToString font s).2
       = Font.assets s.
Proof.
  intros loaded request.
  assert (forall s0, Font.fromFetch nitroOrigin fetch numberToString font s0 =
            (match fetch request with
             | Returned bytes => Returned (loaded bytes)
             | Thrown e => Thrown e
             end,
             {| Font.assets := Font.assets s0;
                Font.requests := Font.requests s0 ++ [request] |})) as Hfetch.
  { intros s0. subst loaded request.
    unfold Font.fromFetch, Font.fetchFont, Font.localRequest,
      Font.endpointRequest, Font.send, Font.withData, bind, modify, settle, ret.
    destruct (Font.given (Font.path font)); simpl;
      by destruct (fetch _). }
  unfold Font.loadFont, Font.cachedText.
  destruct (Font.data font) as [d|]; [done|].
  destruct (Font.given (Font.key font)) as [k|].
  - unfold Font.hasItem, Font.fromCache, Font.getItem. unfold bind, gets, ret. simpl.
    case_bool_decide as Hhas.
    + destruct Hhas as [text Hk]. by rewrite Hk.
    + apply eq_None_not_Some in Hhas. rewrite Hhas, Hfetch. by destruct (fetch request).
  - rewrite Hfetch. by destruct (fetch request).
Qed.

End FontFacts.

(** ** The properties on the sample site *)

Section Running.
Import Sample.

(** The route [/docs/intro] matches [/docs/**], whose [ogImage] sets
    [props] to [{title: "Docs"}], and [/docs/intro], whose [ogImage] sets
    [props] to [{color: "red"}].  The module hands the capture the two
    records merged, [{title: "Docs", color: "red"}]; the shallow merge of
    the specification keeps only the more specific one, [{color: "red"}].
    The record handed over also carries the route and the preview host,
    which none of the merged layers holds. *)
Lemma resolve_shallow_merge_counterexample :
  exists entry,
    resolveRoute (H:=sampleImports) "/docs/intro" (Some staticPage) = Some entry /\
    screenshotOptions sampleConfig entry "http://localhost:3000" !! "props"
      = Some (VObj {[ "title" := VStr "Docs"; "color" := VStr "red" ]}) /\
    specResolve (spread (sampleExtract staticPage))
        (overlay <$> sampleMatchAll "/docs/intro") (defaults sampleConfig) !! "props"
      = Some (VObj {[ "color" := VStr "red" ]}) /\
    screenshotOptions sampleConfig entry "http://localhost:3000" !! "props"
      <> specResolve (spread (sampleExtract staticPage))
           (overlay <$> sampleMatchAll "/docs/intro") (defaults sampleConfig) !! "props" /\
    screenshotOptions sampleConfig entry "http://localhost:3000" !! "route"
      = Some (VStr "/docs/intro") /\
    screenshotOptions sampleConfig entry "http://localhost:3000" !! "host"
      = Some (VStr "http://localhost:3000") /\
    specResolve (spread (sampleExtract staticPage))
        (overlay <$> sampleMatchAll "/docs/intro") (defaults sampleConfig) !! "route"
      = None /\
    specResolve (spread (sampleExtract staticPage))
        (overlay <$> sampleMatchAll "/docs/intro") (defaults sampleConfig) !! "host"
      = None.
Proof.
  eexists. split; [vm_compute; reflexivity|].
  split; [vm_compute; reflexivity|].
  split; [vm_compute; reflexivity|].
  split; [vm_compute; intros [=]|].
  repeat split; vm_compute; reflexivity.
Qed.

Lemma disabled_route_is_skipped_witness :
  sampleMatchAll "/private" = [] ++ [privateRule] /\
  privateRule !! "ogImage" = Some (VBool false) /\
  resolveRoute (H:=sampleImports) "/private" (Some staticPage) = None /\
  prerenderGenerate (H:=sampleImports) true "/private" (Some staticPage) initialWorld
    = initialWorld.
Proof.
  split; [reflexivity|]. split; [reflexivity|].
  apply (disabled_route_is_skipped (H:=sampleImports) true "/private" (Some staticPage)
           initialWorld [] privateRule); reflexivity.
Defined.

Lemma enqueue_iff_browser_eligible_witness :
  resolveRoute (H:=sampleImports) "/about" (Some dynamicPage)
    = Some {[ "route" := VStr "/about"; "path" := VStr "/about";
              "provider" := VStr "browser" ]} /\
  screenshotQueue (prerenderGenerate (H:=sampleImports) true "/about" (Some dynamicPage)
                     initialWorld)
    = [ {[ "route" := VStr "/about"; "path" := VStr "/about";
           "provider" := VStr "browser" ]} ] /\
  prerenderGenerate (H:=sampleImports) false "/about" (Some dynamicPage) initialWorld
    = initialWorld.
Proof.
  assert (resolveRoute (H:=sampleImports) "/about" (Some dynamicPage)
          = Some {[ "route" := VStr "/about"; "path" := VStr "/about";
                    "provider" := VStr "browser" ]}) as Hres.
  { vm_compute. reflexivity. }
  split; [exact Hres|]. split.
  - apply (enqueue_iff_browser_eligible (H:=sampleImports) true "/about"
             (Some dynamicPage) initialWorld _ Hres).
    split; [vm_compute; reflexivity|]. left. reflexivity.
  - apply (enqueue_iff_browser_eligible (H:=sampleImports) false "/about"
             (Some dynamicPage) initialWorld _ Hres).
    intros [_ [Hg|Hs]]; [discriminate Hg|]. vm_compute in Hs. discriminate Hs.
Defined.

Lemma dotted_and_island_are_ignored_witness :
  prerenderGenerate (H:=sampleImports) true "/sitemap.xml" (Some staticPage) initialWorld
    = initialWorld /\
  renderHtml (H:=sampleImports) true true 0 [staticPage]
      {| url := "/__nuxt_island/OgImageBasic"; responseHeaders := [] |} initialWorld
    = (initialWorld, {| url := "/__nuxt_island/OgImageBasic"; responseHeaders := [] |}).
Proof.
  split.
  - apply (dotted_and_island_are_ignored (H:=sampleImports) true true true "/sitemap.xml"
             (Some staticPage) 0 [staticPage]
             {| url := "/__nuxt_island/OgImageBasic"; responseHeaders := [] |} initialWorld).
    vm_compute. reflexivity.
  - apply (dotted_and_island_are_ignored (H:=sampleImports) true true true "/sitemap.xml"
             (Some staticPage) 0 [staticPage]
             {| url := "/__nuxt_island/OgImageBasic"; responseHeaders := [] |} initialWorld).
    right. vm_compute. reflexivity.
Defined.

(** The drain whose normalising loop throws at the inserted item still
    closes the browser, kills the preview server and empties the queue. *)
Lemma teardown_always_runs_witness :
  prerenderScreenshotsHook stubEnv (screenshotQueue scenarioWorld)
    = Returned [jobA; jobB; {[ "route" := VStr "/stub" ]}] /\
  exists w' before,
    captureScreenshots (H:=sampleImports) sampleConfig stubEnv scenarioWorld
      = (Returned tt, w') /\
    browserOpen w' = false /\
    previewRunning w' = false /\
    screenshotQueue w' = [] /\
    trace w' =
      before ++ (if browserToClose stubEnv scenarioWorld then [BrowserClose] else [])
        ++ [PreviewKill].
Proof.
  split; [reflexivity|].
  apply (teardown_always_runs (H:=sampleImports) sampleConfig stubEnv scenarioWorld
           [jobA; jobB; {[ "route" := VStr "/stub" ]}]); [reflexivity|discriminate].
Defined.

(** The installer exits with code 1: the error is logged and the drain
    goes on. *)
Lemma installer_failure_is_not_fatal_witness :
  prerenderScreenshotsHook scenarioEnv (screenshotQueue scenarioWorld)
    = Returned [jobA; jobB] /\
  exists w' rest,
    captureScreenshots (H:=sampleImports) sampleConfig scenarioEnv scenarioWorld
      = (Returned tt, w') /\
    trace w' =
      trace scenarioWorld
        ++ [CallHook (screenshotQueue scenarioWorld);
            LoggerInfo "Ensuring chromium install for og:image generation...";
            SpawnInstall]
        ++ (match installExit scenarioEnv with
            | Some 0 => []
            | _ => [LoggerError installMessage]
            end)
        ++ [SpawnServe (publicDir sampleConfig); CreateBrowser]
        ++ rest.
Proof.
  split; [reflexivity|].
  apply (installer_failure_is_not_fatal (H:=sampleImports) sampleConfig scenarioEnv
           scenarioWorld [jobA; jobB]); [reflexivity|discriminate].
Defined.

(** The capture of [/a] fails; the image of [/b], the next job, is written
    all the same. *)
Lemma capture_pass_isolates_failures_witness :
  exists w',
    capturePass (H:=sampleImports) sampleConfig scenarioEnv "http://localhost:3000"
        [jobA; jobB] scenarioWorld
      = (Returned tt, w') /\
    jobFailed (H:=sampleImports) sampleConfig scenarioEnv "http://localhost:3000" 0 jobA
      = true /\
    (jobFilename (H:=sampleImports) sampleConfig jobB, png) ∈ written w'.
Proof.
  destruct (capture_pass_isolates_failures (H:=sampleImports) sampleConfig scenarioEnv
              "http://localhost:3000" [jobA; jobB] scenarioWorld)
    as (w' & Hrun & _ & _ & _ & Hin); [repeat constructor|].
  exists w'. split; [exact Hrun|]. split; [vm_compute; reflexivity|].
  apply (Hin 1%nat jobB png); vm_compute; reflexivity.
Defined.

(** A nullish field of a more specific rule does not override: [defu] keeps
    the component of the less specific rule. *)
Example defu_skips_null :
  prop "ogImage"
    (defu [∅; {[ "ogImage" := VObj {[ "component" := VNull ]} ]};
              {[ "ogImage" := VObj {[ "component" := VStr "BlogCard" ]} ]}])
    = VObj {[ "component" := VStr "BlogCard" ]}.
Proof. vm_compute. reflexivity. Qed.

(** A rule that says [false] below a more specific rule with a record does
    not switch the image off. *)
Example defu_false_below_record :
  prop "ogImage"
    (defu [∅; {[ "ogImage" := VObj {[ "width" := VNum 800 ]} ]};
              {[ "ogImage" := VBool false ]}])
    = VObj {[ "width" := VNum 800 ]}.
Proof. vm_compute. reflexivity. Qed.

(** The scenario of the specification: the capture of [/a] fails, that of
    [/b] succeeds; the output holds the image of [/b] only, and the drain
    returns. *)
Example scenario_drain :
  (captureScreenshots (H:=sampleImports) sampleConfig scenarioEnv scenarioWorld).1
    = Returned tt /\
  written (captureScreenshots (H:=sampleImports) sampleConfig scenarioEnv scenarioWorld).2
    = [("/out/public/b/__og_image__/og.png"%string, png)] /\
  progressLines
    (trace (captureScreenshots (H:=sampleImports) sampleConfig scenarioEnv scenarioWorld).2)
    = [ {| red := true; lastConnector := false;
           relPath := "/out/public/a/__og_image__/og.png";
           generateTimeMS := 250; percent := 50 |};
        {| red := false; lastConnector := true;
           relPath := "/out/public/b/__og_image__/og.png";
           generateTimeMS := 250; percent := 100 |} ].
Proof. vm_compute. repeat split. Qed.

(** The scenario of the specification: [/blog/post-2] matches [/blog/**]
    only, which sets the width to 1000; the height comes from the defaults. *)
Example scenario_blog_width :
  exists entry,
    resolveRoute (H:=sampleImports) "/blog/post-2" (Some staticPage) = Some entry /\
    screenshotOptions sampleConfig entry "http://localhost:3000" !! "width"
      = Some (VNum 1000) /\
    screenshotOptions sampleConfig entry "http://localhost:3000" !! "height"
      = Some (VNum 630).
Proof. eexists. repeat split; vm_compute; reflexivity. Qed.

(** The endpoint of a font named by family and weight. *)
Example font_endpoint :
  Font.address
    (Font.fontRequest "http://localhost:3000" pretty
       {| Font.name := "Inter"; Font.weight := 400; Font.path := None;
          Font.key := Some "nuxt-og-image:fonts:Inter-400.ttf.base64";
          Font.data := None |})
    = "/__og-image__/font/Inter/400.ttf"%string.
Proof. vm_compute. reflexivity. Qed.

End Running.

(** * Further properties *)

(** ** The [prerender:generate] hook *)

Section HookFacts.
Context `{Imports}.

(** Folding less specific rules under a record keeps a record, and keeps
    each of its scalar fields. *)
Lemma ogImage_record_kept (rules : list Obj) (acc a : Obj) :
  acc !! "ogImage" = Some (VObj a) ->
  exists a',
    foldl defuObj acc rules !! "ogImage" = Some (VObj a') /\
    forall k v, a !! k = Some v -> scalar v = true -> protoKey k = false ->
                a' !! k = Some v.
Proof.
  revert acc a. induction rules as [|rule rules IH]; intros acc a Hacc.
  - exists a. auto.
  - simpl.
    assert (exists a1, defuObj acc rule !! "ogImage" = Some (VObj a1) /\
              forall k v, a !! k = Some v -> scalar v = true -> protoKey k = false ->
                          a1 !! k = Some v) as (a1 & Ha1 & Hkeep1).
    { rewrite ogImage_defuObj, Hacc. simpl.
      destruct (rule !! "ogImage") as [[| | | | |ys|r]|]; simpl; eauto.
      - exists (defuObj a (indexed ys)). split; [done|].
        intros k v Hk Hs Hp. rewrite lookup_defuObj, Hp, Hk. simpl.
        destruct v; try done; simpl; by destruct (indexed ys !! k).
      - exists (defuObj a r). split; [done|].
        intros k v Hk Hs Hp. rewrite lookup_defuObj, Hp, Hk. simpl.
        destruct v; try done; simpl; by destruct (r !! k). }
    destruct (IH _ _ Ha1) as (a' & Ha' & Hkeep). exists a'. split; [done|].
    intros k v Hk Hs Hp. apply Hkeep; auto.
Qed.

Lemma routeRulesOf_most_specific (route : string) (rules : list Obj) (rule a : Obj) :
  matchAll route = rules ++ [rule] ->
  rule !! "ogImage" = Some (VObj a) ->
  exists a',
    routeRulesOf route !! "ogImage" = Some (VObj a') /\
    forall k v, a !! k = Some v -> scalar v = true -> protoKey k = false ->
                a' !! k = Some v.
Proof.
  intros Hmatch Hrule. rewrite routeRulesOf_foldl, Hmatch, reverse_app. simpl.
  rewrite defuObj_empty_l. by apply ogImage_record_kept.
Qed.

(** A record on the most specific rule switches the image on again: the
    route is resolved even when a less specific rule says [ogImage: false]. *)
Theorem most_specific_record_enables (route html : string) (rules : list Obj)
    (rule a : Obj) :
  matchAll route = rules ++ [rule] ->
  rule !! "ogImage" = Some (VObj a) ->
  includes "." route = false ->
  html <> ""%string ->
  truthy (extractOgImageOptions html) = true ->
  resolveRoute route (Some html)
    = Some (makeEntry route (extractOgImageOptions html) (routeRulesOf route)).
Proof.
  intros Hmatch Hrule Hdot Hne Ht.
  destruct (routeRulesOf_most_specific _ _ _ _ Hmatch Hrule) as (a' & Ha' & _).
  assert (Hon : isFalse (prop "ogImage" (routeRulesOf route)) = false)
    by (apply isFalse_prop; by rewrite Ha').
  unfold resolveRoute.
  rewrite Hdot, (bool_decide_eq_false_2 _ Hne), Ht, Hon. done.
Qed.

(** Firing the hook for a list of generated routes appends, in that order,
    the job of each route that has one; the jobs already queued stay in
    front and nothing else in the world changes. *)
Theorem collect_appends_in_order (generate : bool)
    (pages : list (string * option string)) (w : World) :
  collect generate pages w
    = setQueue (screenshotQueue w ++ omap (jobOf generate) pages) w.
Proof.
  revert w. induction pages as [|page pages IH]; intros w; simpl.
  - rewrite app_nil_r. by destruct w.
  - unfold collect in *. simpl. rewrite IH.
    unfold prerenderGenerate, jobOf.
    destruct (resolveRoute page.1 page.2) as [entry|]; [|done].
    destruct (eligible generate entry); [|done].
    simpl. by rewrite <- (assoc_L (++)).
Qed.

End HookFacts.

(** ** The normalising loop *)

Lemma preparing_ret {A} (a : A) : preparing (ret a).
Proof. by intros w. Qed.

Lemma preparing_throw {A} (e : Exn) : preparing (@throw World A e).
Proof. by intros w. Qed.

Lemma preparing_bind {A B} (m : M World A) (f : A -> M World B) :
  preparing m -> (forall a, preparing (f a)) -> preparing (bind m f).
Proof.
  intros Hm Hf w. unfold bind. specialize (Hm w).
  destruct (m w) as [[a|e] w1]; simpl in *; [|done].
  destruct (Hf a w1) as (H1 & H2 & H3 & H4).
  destruct Hm as (G1 & G2 & G3 & G4). repeat split; congruence.
Qed.

Lemma preparing_fetch {A} (request : JSValue) (base : option string) (o : Outcome A) :
  preparing (call (Fetch request base) o).
Proof.
  intros w. unfold call, log, bind, modify, settle. simpl.
  rewrite screenshotCalls_app, progressLines_app. simpl.
  by rewrite !app_nil_r.
Qed.

Lemma preparing_update (i : nat) (entry : Obj) :
  preparing (modify (fun w => setQueue (<[i := entry]> (screenshotQueue w)) w)).
Proof. intros w. simpl. by rewrite length_insert. Qed.

Lemma preparing_forEach {A} (body : nat -> A -> M World unit) (l : list A) (i : nat) :
  (forall k x, preparing (body k x)) -> preparing (forEach body i l).
Proof.
  intros Hbody. revert i. induction l as [|x l IH]; intros i; simpl.
  - apply preparing_ret.
  - apply preparing_bind; [apply Hbody|]. intros _. apply IH.
Qed.

Lemma bind_assoc {W A B C} (m : M W A) (f : A -> M W B) (g : B -> M W C) (w : W) :
  bind (bind m f) g w = bind m (fun a => bind (f a) g) w.
Proof. unfold bind. by destruct (m w) as [[a|e] w1]. Qed.

Lemma bind_call {A B} (e : Event) (o : Outcome A) (a : A) (k : A -> M World B) (w : World) :
  o = Returned a -> bind (call e o) k w = k a (emit e w).
Proof. by intros ->. Qed.

Section CompletionFacts.
Context `{Imports} (config : Config) (env : Env).

Lemma preparing_completeEntry (host : string) (i : nat) (entry : Obj) :
  preparing (completeEntry config env host i entry).
Proof.
  unfold completeEntry.
  apply preparing_bind.
  - destruct (truthy (prop "route" entry) && bool_decide (size entry = 1%nat));
      [|apply preparing_ret].
    apply preparing_bind; [apply preparing_fetch|]. intros html.
    destruct (prop "route" entry); try apply preparing_throw.
    destruct (nullish (extractOgImageOptions html));
      [apply preparing_throw|apply preparing_ret].
  - intros entry1. apply preparing_bind.
    + destruct (truthy (prop "component" entry1)); [|apply preparing_ret].
      apply preparing_bind; [apply preparing_fetch|]. intros html. apply preparing_ret.
    + intros entry2. apply preparing_update.
Qed.

(** The world is a record: putting its own queue back changes nothing. *)
Lemma setQueue_same (w : World) : setQueue (screenshotQueue w) w = w.
Proof. by destruct w. Qed.

Lemma completeEntry_settled (host : string) (i : nat) (entry : Obj) (w : World) :
  settled entry = true ->
  completeEntry config env host i entry w
    = (Returned tt, setQueue (<[i := entry]> (screenshotQueue w)) w).
Proof.
  intros [Hr Hc]%andb_true_iff. apply negb_true_iff in Hr, Hc.
  unfold routeOnly in Hr. unfold completeEntry. rewrite Hr, bind_ret, Hc, bind_ret.
  reflexivity.
Qed.

Lemma forEach_completeEntry_settled (host : string) (l pre : list Obj) (w : World) :
  screenshotQueue w = pre ++ l ->
  Forall (fun entry => settled entry = true) l ->
  forEach (completeEntry config env host) (length pre) l w = (Returned tt, w).
Proof.
  revert pre. induction l as [|entry l IH]; intros pre Hq Hall; [done|].
  apply Forall_cons in Hall as [Hentry Hall]. simpl. unfold bind at 1.
  rewrite completeEntry_settled by done.
  rewrite list_insert_id by (rewrite Hq; apply list_lookup_middle; done).
  rewrite setQueue_same.
  replace (S (length pre)) with (length (pre ++ [entry]))
    by (rewrite length_app; simpl; lia).
  apply IH; [|done]. by rewrite <- (assoc_L (++)).
Qed.

Lemma forEach_completeEntry_idle (host : string) (queue : list Obj) (w : World) :
  screenshotQueue w = queue ->
  Forall (fun entry => settled entry = true) queue ->
  forEach (completeEntry config env host) 0 queue w = (Returned tt, w).
Proof. intros Hq Hall. by apply (forEach_completeEntry_settled host queue []). Qed.

(** The normalising loop does nothing for a queue of settled items: no page
    is fetched and the world is left as it is. *)
Theorem completion_skips_settled (host : string) (w : World) :
  Forall (fun entry => settled entry = true) (screenshotQueue w) ->
  forEach (completeEntry config env host) 0 (screenshotQueue w) w = (Returned tt, w).
Proof. intros Hall. by apply (forEach_completeEntry_settled host _ []). Qed.

(** The literal of the hook always holds a route and a path. *)
Lemma makeEntry_not_routeOnly (route : string) (extractedOptions : JSValue)
    (routeRules : Obj) :
  routeOnly (makeEntry route extractedOptions routeRules) = false.
Proof.
  unfold routeOnly. apply andb_false_iff. right. apply bool_decide_eq_false_2.
  set (entry := makeEntry _ _ _).
  assert (forall k, k = "route"%string \/ k = "path"%string -> is_Some (entry !! k)) as Hin.
  { intros k Hk. unfold entry, makeEntry.
    rewrite !lookup_union.
    assert (is_Some ((<["path" := VStr (entryPath route extractedOptions)]>
                        (<["route" := VStr route]> (∅ : Obj))) !! k)) as [x Hx].
    { destruct Hk as [-> | ->]; [by rewrite lookup_insert_ne, lookup_insert_eq
                                |by rewrite lookup_insert_eq]. }
    rewrite Hx. destruct (spread _ !! k), (spread _ !! k); simpl; eauto. }
  intros Hsize.
  assert (size (delete "route" entry) = 0%nat) as Hzero.
  { rewrite map_size_delete_Some by (apply Hin; by left). by rewrite Hsize. }
  apply (map_size_ne_0_lookup_2 (delete "route" entry) "path"); [|done].
  rewrite lookup_delete_ne by done. apply Hin. by right.
Qed.

(** An entry built by the [prerender:generate] hook holds at least its route
    and its path, so the normalising loop never takes it for a route-only
    item and never fetches its page for options again. *)
Theorem hook_entry_is_not_route_only (route : string) (contents : option string)
    (entry : Obj) :
  resolveRoute route contents = Some entry ->
  routeOnly entry = false.
Proof.
  intros Hres. apply resolveRoute_Some in Hres as (html & _ & _ & _ & _ & ->).
  apply makeEntry_not_routeOnly.
Qed.

(** A route-only item inserted by the [og-image:prerenderScreenshots] hook
    is completed, from the page the preview server serves, to the very entry
    the [prerender:generate] hook builds for that route and page. *)
Theorem stub_completed_like_hook (host route html : string) (i : nat)
    (entry : Obj) (w : World) :
  route <> ""%string ->
  fetch env i (VStr route) (withBase (baseURL config) host) = Returned html ->
  resolveRoute route (Some html) = Some entry ->
  truthy (prop "component" entry) = false ->
  completeEntry config env host i {[ "route" := VStr route ]} w
    = (Returned tt,
       setQueue (<[i := entry]> (screenshotQueue w))
         (emit (Fetch (VStr route) (Some (withBase (baseURL config) host))) w)).
Proof.
  intros Hroute Hfetch Hres Hcomp.
  apply resolveRoute_Some in Hres as (html' & [= <-] & _ & Ht & _ & ->).
  assert (spread (orEmpty (prop "ogImage" (routeRulesOf route)))
            ∪ (spread (extractOgImageOptions html)
                 ∪ <["path" := VStr (entryPath route (extractOgImageOptions html))]> ∅)
            ∪ {[ "route" := VStr route ]}
          = makeEntry route (extractOgImageOptions html) (routeRulesOf route)) as Heq.
  { unfold makeEntry. rewrite <- !(assoc_L (∪)). f_equal. }
  assert (prop "route" ({[ "route" := VStr route ]} : Obj) = VStr route) as Hprop.
  { unfold prop. by rewrite lookup_singleton_eq. }
  assert (nullish (extractOgImageOptions html) = false) as Hnull.
  { by destruct (extractOgImageOptions html). }
  unfold completeEntry. rewrite Hprop, map_size_singleton. simpl truthy.
  rewrite bool_decide_eq_false_2 by done.
  rewrite bool_decide_eq_true_2 by done. cbn [negb andb].
  rewrite bind_assoc, (bind_call _ _ _ _ _ Hfetch). cbn [negb andb].
  rewrite Hnull, bind_ret, Heq, Hcomp, bind_ret.
  reflexivity.
Qed.

End CompletionFacts.

(** ** From the entry of the hook to the options of the capture *)

Section HandoverFacts.
Context `{Imports} (config : Config) (env : Env).

(** The normalising loop leaves an item that is not route-only as it is,
    but for the page of its component. *)
Lemma completeEntry_built (host : string) (i : nat) (entry : Obj) (w w1 : World) :
  routeOnly entry = false ->
  completeEntry config env host i entry w = (Returned tt, w1) ->
  screenshotQueue w1 = <[i := fetchedHtml env i entry ∪ entry]> (screenshotQueue w).
Proof.
  intros Hro. unfold routeOnly in Hro. unfold completeEntry, fetchedHtml.
  rewrite Hro, bind_ret.
  destruct (truthy (prop "component" entry)).
  - rewrite bind_assoc. unfold call, log, settle, bind, modify, ret. simpl.
    destruct (globalFetch env i (prop "path" entry)) as [page|e]; [|done].
    intros [= <-]. simpl. by rewrite insert_union_singleton_l.
  - rewrite bind_ret. unfold modify. intros [= <-]. simpl.
    by rewrite (left_id_L ∅ (∪)).
Qed.

Lemma lookup_fetchedHtml (i : nat) (entry : Obj) (k : string) :
  k <> "html"%string ->
  (fetchedHtml env i entry ∪ entry) !! k = entry !! k.
Proof.
  intros Hk. rewrite lookup_union. unfold fetchedHtml.
  destruct (truthy (prop "component" entry)); [|by rewrite lookup_empty, (left_id_L None _)].
  destruct (globalFetch env i (prop "path" entry));
    [rewrite lookup_singleton_ne by done|rewrite lookup_empty];
    by rewrite (left_id_L None _).
Qed.

(** The job of an entry the hook built, once the normalising loop has
    returned for it: the options of its one call of [screenshot]. *)
Lemma handed_to_screenshot (route html host : string) (entry : Obj) (len i : nat)
    (w w1 : World) :
  resolveRoute route (Some html) = Some entry ->
  screenshotQueue w !! i = Some entry ->
  completeEntry config env host i entry w = (Returned tt, w1) ->
  joinable (prop "route" entry) = true ->
  screenshotQueue w1 !! i = Some (fetchedHtml env i entry ∪ entry) /\
  screenshotCalls
    (trace (captureJob config env host len i (fetchedHtml env i entry ∪ entry) w1).2)
    = screenshotCalls (trace w1)
        ++ [(i, <["host" := VStr host]> (fetchedHtml env i entry ∪ (entry ∪ defaults config)))].
Proof.
  intros Hres Hq Hcomplete Hjoin.
  assert (routeOnly entry = false) as Hro.
  { apply resolveRoute_Some in Hres as (page & _ & _ & _ & _ & ->).
    apply makeEntry_not_routeOnly. }
  rewrite (completeEntry_built _ _ _ _ _ Hro Hcomplete). split.
  - apply list_lookup_insert_eq. by eapply lookup_lt_Some.
  - destruct (captureJob_run config env host len i (fetchedHtml env i entry ∪ entry) w1)
      as (w2 & Hrun & _ & Hs & _).
    { unfold prop in *. by rewrite lookup_fetchedHtml. }
    rewrite Hrun. simpl. rewrite Hs. unfold screenshotOptions.
    by rewrite <- (assoc_L (∪)).
Qed.

(** C1 (as amended).  When the rules matching the route are typed as
    declared and, taken from the most specific on, each overrides the less
    specific ones field by field (no nullish field, and no record or array
    met by a record or array in a less specific rule), the options handed to
    [screenshot] for the entry the hook built are the field-by-field shallow
    merge defaults < route and path < extracted < overlays from the least to
    the most specific, with the page fetched for the entry's component, if
    it names one, and the preview host on top. *)
Theorem resolve_shallow_merge (route html host : string) (entry : Obj) (len i : nat)
    (w w1 : World) :
  Forall typedRule (matchAll route) ->
  layered (reverse (matchAll route)) ->
  resolveRoute route (Some html) = Some entry ->
  screenshotQueue w !! i = Some entry ->
  completeEntry config env host i entry w = (Returned tt, w1) ->
  joinable (prop "route" entry) = true ->
  let resolved :=
    <["host" := VStr host]>
      (fetchedHtml env i entry
         ∪ specResolve
             (spread (extractOgImageOptions html)
                ∪ derivedFields route (extractOgImageOptions html))
             (overlay <$> matchAll route)
             (defaults config)) in
  exists entry1,
    screenshotQueue w1 !! i = Some entry1 /\
    screenshotOptions config entry1 host = resolved /\
    screenshotCalls (trace (captureJob config env host len i entry1 w1).2)
      = screenshotCalls (trace w1) ++ [(i, resolved)].
Proof.
  intros Htyped Hlay Hres Hq Hcomplete Hjoin resolved.
  destruct (handed_to_screenshot route html host entry len i w w1 Hres Hq Hcomplete Hjoin)
    as [Hq1 Hcall].
  exists (fetchedHtml env i entry ∪ entry). subst resolved.
  rewrite <- (entry_shallow_merge config route html entry Htyped Hlay Hres).
  split; [done|]. split; [|done].
  unfold screenshotOptions. by rewrite <- (assoc_L (∪)).
Qed.


End HandoverFacts.

(** ** The drain, further *)

Lemma bind_gets {W A B} (f : W -> A) (k : A -> M W B) (w : W) :
  bind (gets f) k w = k (f w) w.
Proof. reflexivity. Qed.

Section DrainFurther.
Context `{Imports} (config : Config) (env : Env).

Lemma atTry_facts (w : World) :
  screenshotQueue (atTry config env w) = screenshotQueue w /\
  written (atTry config env w) = written w /\
  browserOpen (atTry config env w) = browserOpen w /\
  screenshotCalls (trace (atTry config env w)) = screenshotCalls (trace w) /\
  progressLines (trace (atTry config env w)) = progressLines (trace w) /\
  trace (atTry config env w) =
    trace w
      ++ [LoggerInfo "Ensuring chromium install for og:image generation..."; SpawnInstall]
      ++ installLog (installExit env) ++ [SpawnServe (publicDir config)].
Proof.
  unfold atTry.
  destruct (installExit env) as [[| |]|]; simpl;
    rewrite ?screenshotCalls_app, ?progressLines_app; simpl;
    rewrite ?app_nil_r; repeat split; by repeat (rewrite <- ?(assoc_L (++)); simpl).
Qed.

Lemma drainQueue_atTry (w : World) :
  drainQueue config env w =
    bind (tryFinally (tryCatch (drainBody config env) (fun e => log (ConsoleError e)))
            teardown)
         (fun _ => modify (setQueue [])) (atTry config env w).
Proof.
  unfold drainQueue, atTry. rewrite !bind_log.
  destruct (installExit env) as [[| |]|]; simpl;
    by rewrite ?bind_ret, ?bind_log, bind_modify.
Qed.

(** After the [try] block: the drain returns, the queue is empty, both
    processes are down, and what was captured and written is what the block
    captured and wrote. *)
Lemma drainQueue_effects (w : World) :
  exists w',
    drainQueue config env w = (Returned tt, w') /\
    screenshotQueue w' = [] /\
    browserOpen w' = false /\
    previewRunning w' = false /\
    written w' = written (drainBody config env (atTry config env w)).2 /\
    screenshotCalls (trace w')
      = screenshotCalls (trace (drainBody config env (atTry config env w)).2) /\
    progressLines (trace w')
      = progressLines (trace (drainBody config env (atTry config env w)).2).
Proof.
  rewrite drainQueue_atTry.
  unfold bind, tryFinally, tryCatch, teardown, log, bind, modify, gets, ret.
  destruct (drainBody config env (atTry config env w)) as [[[]|e] w1]; simpl;
    destruct (browserOpen w1) eqn:Hb; simpl; eexists; (split; [reflexivity|]); simpl;
    rewrite ?screenshotCalls_app, ?progressLines_app; simpl;
    rewrite ?app_nil_r; by repeat split.
Qed.

Lemma captureScreenshots_nonempty (w : World) (queue : list Obj) :
  prerenderScreenshotsHook env (screenshotQueue w) = Returned queue ->
  queue <> [] ->
  captureScreenshots config env w
    = drainQueue config env (setQueue queue (emit (CallHook (screenshotQueue w)) w)).
Proof.
  intros Hhook Hne. unfold captureScreenshots.
  rewrite bind_gets, (bind_call _ _ _ _ _ Hhook), bind_modify.
  by destruct queue.
Qed.

Lemma passes_run (host : string) (w : World) :
  passes config env host w =
    match forEach (completeEntry config env host) 0 (screenshotQueue w)
            (emit (LoggerInfo ("Prerendering " +:+ pretty (length (screenshotQueue w))
                                 +:+ " og:image screenshots...")) w) with
    | (Returned _, w2) => capturePass config env host (screenshotQueue w2) w2
    | (Thrown e, w2) => (Thrown e, w2)
    end.
Proof.
  unfold passes. rewrite bind_gets, bind_log. unfold bind at 1.
  by destruct (forEach _ _ _ _) as [[[]|e] w2].
Qed.

(** The two loops never add a job to the queue nor drop one, whether they
    return or the normalising loop throws. *)
Theorem passes_keep_job_count (host : string) (w : World) :
  length (screenshotQueue (passes config env host w).2) = length (screenshotQueue w).
Proof.
  rewrite passes_run.
  pose proof (preparing_forEach (completeEntry config env host) (screenshotQueue w) 0
                (preparing_completeEntry config env host)
                (emit (LoggerInfo ("Prerendering " +:+ pretty (length (screenshotQueue w))
                                     +:+ " og:image screenshots...")) w)) as (Hlen & _).
  destruct (forEach _ _ _ _) as [[[]|e] w2]; simpl in *; [|done].
  destruct (forEach_captureJob_prefix config env host (length (screenshotQueue w2))
              (screenshotQueue w2) 0 w2) as (n & _ & _ & Hq).
  unfold capturePass. by rewrite Hq.
Qed.

(** When the two loops throw and every job left in the queue has a route
    that can be joined, it is the normalising loop that threw: no screenshot
    has been taken, no image written and no progress line logged, for any
    job of the batch. *)
Theorem completion_failure_aborts_batch (host : string) (w : World) (e : Exn) :
  (passes config env host w).1 = Thrown e ->
  Forall (fun entry => joinable (prop "route" entry) = true)
    (screenshotQueue (passes config env host w).2) ->
  screenshotCalls (trace (passes config env host w).2) = screenshotCalls (trace w) /\
  progressLines (trace (passes config env host w).2) = progressLines (trace w) /\
  written (passes config env host w).2 = written w.
Proof.
  rewrite passes_run.
  pose proof (preparing_forEach (completeEntry config env host) (screenshotQueue w) 0
                (preparing_completeEntry config env host)
                (emit (LoggerInfo ("Prerendering " +:+ pretty (length (screenshotQueue w))
                                     +:+ " og:image screenshots...")) w))
    as (_ & Hs & Hp & Hw).
  destruct (forEach _ _ _ _) as [[[]|e'] w2]; simpl in *.
  - intros Hthrown Hjoin.
    destruct (forEach_captureJob_prefix config env host (length (screenshotQueue w2))
                (screenshotQueue w2) 0 w2) as (n & _ & _ & Hq).
    unfold capturePass in *. rewrite Hq in Hjoin.
    destruct (forEach_captureJob config env host (length (screenshotQueue w2))
                (screenshotQueue w2) 0 w2 Hjoin) as (w3 & Hrun & _).
    by rewrite Hrun in Hthrown.
  - intros _ _. rewrite screenshotCalls_app, progressLines_app in *. simpl in *.
    rewrite app_nil_r in *. done.
Qed.

(** When no browser is obtained, because [createBrowser] answers [null] or
    throws, the drain reports it and tears down: no page is fetched, no
    screenshot taken, nothing written; the preview server is killed and the
    queue is emptied all the same. *)
Theorem no_browser_no_capture (w : World) (queue : list Obj) :
  prerenderScreenshotsHook env (screenshotQueue w) = Returned queue ->
  queue <> [] ->
  createBrowser env <> Returned true ->
  exists w',
    captureScreenshots config env w = (Returned tt, w') /\
    trace w' =
      trace w
        ++ [CallHook (screenshotQueue w);
            LoggerInfo "Ensuring chromium install for og:image generation...";
            SpawnInstall]
        ++ installLog (installExit env)
        ++ [SpawnServe (publicDir config); CreateBrowser;
            browserFailure (createBrowser env)]
        ++ (if browserOpen w then [BrowserClose] else [])
        ++ [PreviewKill] /\
    written w' = written w /\
    screenshotQueue w' = [] /\
    browserOpen w' = false /\
    previewRunning w' = false.
Proof.
  intros Hhook Hne Hnb.
  rewrite (captureScreenshots_nonempty _ _ Hhook Hne), drainQueue_atTry.
  destruct (atTry_facts (setQueue queue (emit (CallHook (screenshotQueue w)) w)))
    as (_ & Hw & Hb & _ & _ & Htr).
  set (w1 := atTry config env _) in *. simpl in Hw, Hb, Htr.
  unfold bind, tryFinally, tryCatch, drainBody, teardown, call, log, bind, modify,
    gets, settle, ret.
  destruct (createBrowser env) as [[]|e]; [done| |]; simpl;
    rewrite Hb; destruct (browserOpen w); simpl;
    eexists; (split; [reflexivity|]); simpl; rewrite Htr, Hw;
    repeat split; by repeat (rewrite <- ?(assoc_L (++)); simpl).
Qed.

(** A drain that has returned leaves nothing to do: run again, as the
    second build hook does, it calls the [og-image:prerenderScreenshots]
    hook on the empty queue and, when that leaves the queue empty, returns
    at once, spawning neither installer nor preview server nor browser. *)
Theorem second_drain_is_idle (w w1 : World) :
  captureScreenshots config env w = (Returned tt, w1) ->
  prerenderScreenshotsHook env [] = Returned [] ->
  captureScreenshots config env w1 = (Returned tt, emit (CallHook []) w1).
Proof.
  intros Hfirst Hhook.
  assert (screenshotQueue w1 = []) as Hq.
  { unfold captureScreenshots in Hfirst. rewrite bind_gets in Hfirst.
    destruct (prerenderScreenshotsHook env (screenshotQueue w)) as [queue|e] eqn:Hh.
    - rewrite (bind_call _ _ _ _ _ eq_refl), bind_modify in Hfirst.
      destruct queue as [|entry queue]; simpl in Hfirst.
      + by injection Hfirst as <-.
      + destruct (drainQueue_effects
                    (setQueue (entry :: queue) (emit (CallHook (screenshotQueue w)) w)))
          as (w' & Hrun & Hq' & _). congruence.
    - unfold call, log, bind, modify, settle in Hfirst. simpl in Hfirst. done. }
  unfold captureScreenshots. rewrite bind_gets, Hq, (bind_call _ _ _ _ _ Hhook), bind_modify.
  simpl. unfold ret. f_equal. destruct w1; simpl in *. by subst.
Qed.

(** A drain over settled jobs whose routes can be joined, with a browser:
    every job of the queue gets its screenshot call, in queue order and with the options of that job,
    and its progress line; the images written are those of the jobs whose
    capture and write succeeded; the drain returns with an empty queue. *)
Theorem drain_captures_settled_jobs (w : World) (queue : list Obj) :
  prerenderScreenshotsHook env (screenshotQueue w) = Returned queue ->
  queue <> [] ->
  Forall (fun entry => settled entry = true) queue ->
  Forall (fun entry => joinable (prop "route" entry) = true) queue ->
  createBrowser env = Returned true ->
  exists w',
    captureScreenshots config env w = (Returned tt, w') /\
    screenshotCalls (trace w') =
      screenshotCalls (trace w)
        ++ imap (fun k entry => (k, screenshotOptions config entry (previewHost env))) queue /\
    progressLines (trace w') =
      progressLines (trace w)
        ++ imap (fun k entry =>
                   progressLine config env (length queue) k (jobFilename config entry)
                     (jobFailed config env (previewHost env) k entry)) queue /\
    written w' =
      written w
        ++ mjoin (imap (fun k entry => jobWritten config env (previewHost env) k entry) queue) /\
    screenshotQueue w' = [].
Proof.
  intros Hhook Hne Hall Hjoin Hbrowser.
  rewrite (captureScreenshots_nonempty _ _ Hhook Hne).
  destruct (drainQueue_effects (setQueue queue (emit (CallHook (screenshotQueue w)) w)))
    as (w' & Hrun & Hq & _ & _ & Hw & Hs & Hp).
  destruct (atTry_facts (setQueue queue (emit (CallHook (screenshotQueue w)) w)))
    as (Hq1 & Hw1 & _ & Hs1 & Hp1 & _).
  set (w1 := atTry config env _) in *. simpl in Hq1, Hw1, Hs1, Hp1.
  rewrite screenshotCalls_app, progressLines_app in *. simpl in Hs1, Hp1.
  rewrite app_nil_r in *.
  assert (drainBody config env w1
          = capturePass config env (previewHost env) queue
              (emit (LoggerInfo ("Prerendering " +:+ pretty (length queue)
                                   +:+ " og:image screenshots..."))
                 (setBrowser true (emit CreateBrowser w1)))) as Hbody.
  { unfold drainBody. rewrite (bind_call _ _ _ _ _ Hbrowser), bind_modify.
    rewrite passes_run. simpl screenshotQueue. rewrite Hq1.
    rewrite (forEach_completeEntry_idle config env (previewHost env) queue); try done.
    simpl. by rewrite Hq1. }
  rewrite Hbody in *.
  destruct (forEach_captureJob config env (previewHost env) (length queue) queue 0
              (emit (LoggerInfo ("Prerendering " +:+ pretty (length queue)
                                   +:+ " og:image screenshots..."))
                 (setBrowser true (emit CreateBrowser w1))) Hjoin)
    as (w3 & Hcap & Hp3 & Hs3 & Hw3 & _).
  unfold capturePass in *. rewrite Hcap in *. simpl in *.
  rewrite !screenshotCalls_app, !progressLines_app in *. simpl in *.
  rewrite !app_nil_r in *.
  exists w'. split; [done|]. rewrite Hs, Hs3, Hs1, Hp, Hp3, Hp1, Hw, Hw3, Hw1.
  done.
Qed.

Lemma length_join_imap {A B} (f : nat -> A -> list B) (l : list A) :
  (forall k x, (length (f k x) <= 1)%nat) ->
  (length (mjoin (imap f l)) <= length l)%nat.
Proof.
  revert f. induction l as [|x l IH]; intros f Hf; simpl; [done|].
  rewrite length_app. pose proof (Hf 0%nat x) as Hhead.
  assert (length (mjoin (imap (f ∘ S) l)) <= length l)%nat as Hrest.
  { apply IH. intros k y. apply Hf. }
  lia.
Qed.

End DrainFurther.

Section CaptureFurther.
Context `{Imports} (config : Config) (env : Env).

(** The capture pass writes at most one image per job, and every image it
    writes is the one captured for some job of the queue, stored under the
    [og.png] path of that job's route. *)
Theorem capture_writes_only_job_images (host : string) (queue : list Obj) (w : World) :
  (length (written (capturePass config env host queue w).2)
     <= length (written w) + length queue)%nat /\
  forall file img,
    (file, img) ∈ written (capturePass config env host queue w).2 ->
    (file, img) ∈ written w \/
    exists k entry,
      queue !! k = Some entry /\
      file = jobFilename config entry /\
      screenshot env k (screenshotOptions config entry host) = Returned img.
Proof.
  destruct (forEach_captureJob_prefix config env host (length queue) queue 0 w)
    as (n & Hn & Hw & _).
  unfold capturePass. rewrite Hw. split.
  - rewrite length_app. apply Nat.add_le_mono_l.
    etrans; [apply length_join_imap|rewrite length_take; lia].
    intros k entry. unfold jobWritten. by destruct (jobImage _ _ _ _ _); simpl; lia.
  - intros file img [Hin|Hin]%elem_of_app; [by left|]. right.
    apply list_elem_of_join in Hin as (l & Hin & Hl).
    apply list_elem_of_lookup in Hl as (k & Hk).
    rewrite list_lookup_imap in Hk.
    destruct (take n queue !! k) as [entry|] eqn:Hentry; [|done].
    apply lookup_take_Some in Hentry as [Hentry _].
    simpl in Hk. injection Hk as <-. exists k, entry. split; [done|].
    unfold jobWritten, jobImage in Hin.
    destruct (screenshot env k (screenshotOptions config entry host)) as [buf|e];
      [|by apply elem_of_nil in Hin].
    destruct (writeFile env k (jobFilename config entry) buf) as [[]|e];
      [|by apply elem_of_nil in Hin].
    apply list_elem_of_singleton in Hin. by injection Hin as -> ->.
Qed.

End CaptureFurther.

(** ** The prerender plugin, further *)

Section PluginFurther.
Context `{Imports}.

(** The [render:html] handler touches nothing but the cache entry of the
    request URL and the response headers: the cache entries of other URLs,
    the screenshot queue and the headers already set are kept. *)
Theorem plugin_touches_only_its_url (prerender forcePrerender : bool) (now : Z)
    (head : list string) (event : H3Event) (w : World) :
  let result := renderHtml prerender forcePrerender now head event w in
  (forall other, other <> url event ->
     optionCacheStorage result.1 !! other = optionCacheStorage w !! other) /\
  screenshotQueue result.1 = screenshotQueue w /\
  url result.2 = url event /\
  responseHeaders event `prefix_of` responseHeaders result.2.
Proof.
  simpl. unfold renderHtml.
  destruct prerender; simpl; [|done].
  destruct (includes "." (url event) || startsWith "/__nuxt_island/" (url event));
    [done|].
  destruct (truthy (extractOgImageOptions (joinLines LF head))); simpl; [|done].
  destruct ((forcePrerender || _) && _); simpl; repeat split;
    try (intros other Hother; by rewrite lookup_insert_ne);
    try done.
  by apply prefix_app_r.
Qed.

End PluginFurther.

(** ** The font loader, further *)

Section FontFurther.
Variable fromBase64 : string -> Buffer.
Variable nitroOrigin : string.
Variable fetch : Font.Request -> Outcome Buffer.
Variable numberToString : Z -> string.

(** A font that [loadFont] has returned carries its bytes and is otherwise
    the font that was asked for; loading it again returns it as it is, with
    no storage read and no request. *)
Theorem loadFont_then_loadFont (font font' : Font.ResolvedFontConfig) (s s' : Font.Store) :
  Font.loadFont fromBase64 nitroOrigin fetch numberToString font s = (Returned font', s') ->
  is_Some (Font.data font') /\
  Font.name font' = Font.name font /\
  Font.weight font' = Font.weight font /\
  Font.path font' = Font.path font /\
  Font.key font' = Font.key font /\
  Font.loadFont fromBase64 nitroOrigin fetch numberToString font' s' = (Returned font', s').
Proof.
  intros Hload.
  assert (is_Some (Font.data font') /\
          Font.name font' = Font.name font /\
          Font.weight font' = Font.weight font /\
          Font.path font' = Font.path font /\
          Font.key font' = Font.key font) as Hkeep.
  { unfold Font.loadFont in Hload.
    destruct (Font.data font) as [d|] eqn:Hd.
    - injection Hload as <- <-. rewrite Hd. eauto.
    - assert (forall f0 s0 s1,
                Font.fromFetch nitroOrigin fetch numberToString font s0 = (Returned f0, s1) ->
                exists d, f0 = Font.withData font d) as Hfetch.
      { intros f0 s0 s1. unfold Font.fromFetch, Font.fetchFont, bind, modify, settle, ret.
        destruct (Font.given (Font.path font)); simpl;
          destruct (fetch _); intros [= <- <-]; eauto. }
      assert (exists d, font' = Font.withData font d) as [d ->].
      { destruct (Font.given (Font.key font)) as [k|]; [|by eapply Hfetch].
        unfold bind, Font.hasItem, gets in Hload. simpl in Hload.
        case_bool_decide; [|by eapply Hfetch].
        unfold Font.fromCache, Font.getItem, bind, gets, ret, throw in Hload.
        simpl in Hload. destruct (Font.assets s !! k); [|done].
        injection Hload as <- <-. eauto. }
      simpl. eauto 10. }
  destruct Hkeep as ([d Hd] & Hrest). repeat split; try apply Hrest; eauto.
  unfold Font.loadFont. by rewrite Hd.
Qed.

End FontFurther.

(** ** The module options *)

Module OptionsFacts.
Import Options.

Lemma isStr_eq (lit : string) (v : JSValue) : isStr lit v = true <-> v = VStr lit.
Proof.
  destruct v; simpl; try (split; [done|discriminate]).
  rewrite bool_decide_eq_true. split; [by intros ->|by intros [= ->]].
Qed.

(** By default the wasm files are inlined only on an edge preset, where the
    browser provider is off: with the defaults, inlining the wasm and the
    browser renderer never go together. *)
Theorem inline_wasm_default_excludes_browser (env : ProcessEnv) (nuxt : NuxtOptions) :
  experimentalInlineWasm (defaultOptions env nuxt) = true ->
  isEdgeProvider env nuxt = true /\
  browserProvider (defaultOptions env nuxt) = false /\
  useProvider (defaultOptions env nuxt) (VStr "browser") = None.
Proof.
  simpl. rewrite orb_false_r. intros Hinline.
  assert (isEdgeProvider env nuxt = true) as Hedge.
  { unfold isEdgeProvider. apply orb_true_iff in Hinline as [Hp|Hp];
      apply isStr_eq in Hp; rewrite Hp; [|by rewrite orb_true_r].
    reflexivity. }
  unfold useProvider. simpl. by rewrite Hedge.
Qed.

(** The drain is hooked to the build exactly when the default
    [forcePrerender] is on: never in development, and only when generating. *)
Theorem drain_hooked_iff_force_prerender (env : ProcessEnv) (nuxt : NuxtOptions) :
  (drainHooks nuxt = ["rollup:before"; "close"]%string
     <-> forcePrerender (defaultOptions env nuxt) = true) /\
  (drainHooks nuxt = [] <-> forcePrerender (defaultOptions env nuxt) = false) /\
  (dev nuxt = true -> drainHooks nuxt = [] /\ playground (defaultOptions env nuxt) = true).
Proof.
  unfold drainHooks. simpl.
  destruct (dev nuxt), (_generate nuxt); simpl; repeat split; try done;
    by rewrite orb_true_r.
Qed.

(** The head of [setup] leaves a list of fonts that is never empty, keeps a
    list the user gave, and changes nothing when run again. *)
Theorem normalise_fonts (config : ModuleOptions) :
  fonts (normalise config) <> [] /\
  (fonts config <> [] -> fonts (normalise config) = fonts config) /\
  normalise (normalise config) = normalise config.
Proof.
  unfold normalise. simpl. repeat split.
  - by destruct (fonts config).
  - by destruct (fonts config).
  - f_equal.
    + unfold jsOr. destruct (truthy (siteUrl config)) eqn:Hs; [by rewrite Hs|].
      by destruct (truthy (host config)) eqn:Hh; rewrite ?Hh.
    + by destruct (fonts config).
Qed.

End OptionsFacts.

(** ** The [compiled] hook *)

Module CompiledFacts.
Import Compiled.

Lemma within_ret {A} (targets : list string) (a : A) : within targets (ret a).
Proof. by intros fs p _. Qed.

Lemma within_bind {A B} (targets : list string) (m : M Files A) (f : A -> M Files B) :
  within targets m -> (forall a, within targets (f a)) -> within targets (bind m f).
Proof.
  intros Hm Hf fs p Hp. unfold bind. specialize (Hm fs p Hp).
  destruct (m fs) as [[a|e] fs1]; simpl in *; [|done].
  by rewrite (Hf a fs1 p Hp).
Qed.

Lemma within_copy (targets : list string) (src dst : string) :
  dst ∈ targets -> within targets (copy src dst).
Proof.
  intros Hdst fs p Hp. unfold copy. destruct (fs !! src); simpl; [|done].
  apply lookup_insert_ne. by intros ->.
Qed.

Lemma within_readFile (targets : list string) (p : string) : within targets (readFile p).
Proof. intros fs q _. unfold readFile. by destruct (fs !! p). Qed.

Lemma within_pathExists (targets : list string) (p : string) : within targets (pathExists p).
Proof. by intros fs q _. Qed.

Lemma within_writeFile (targets : list string) (p contents : string) :
  p ∈ targets -> within targets (writeFile p contents).
Proof.
  intros Hin fs q Hq. unfold writeFile, modify. simpl.
  apply lookup_insert_ne. by intros ->.
Qed.

Ltac copy_target :=
  simpl; repeat first [apply list_elem_of_here | apply list_elem_of_further].

Section HookFacts.
Variable resolve : list string -> string.
Variable replace : string -> string -> string -> string.
Variable toBase64 : string -> string.
Variable experimentalInlineWasm : bool.
Variable useSatoriWasm : bool.

Lemma within_copyAssets (options : NitroOptions) (more : list string) :
  within (copyTargets resolve options ++ more)
    (copyAssets resolve experimentalInlineWasm useSatoriWasm options).
Proof.
  unfold copyAssets, copyTargets.
  apply within_bind; [apply within_copy; copy_target|]. intros _.
  apply within_bind; [apply within_copy; copy_target|]. intros _.
  destruct experimentalInlineWasm; simpl; [apply within_ret|].
  apply within_bind; [apply within_copy; copy_target|]. intros _.
  destruct useSatoriWasm; [apply within_copy; copy_target|apply within_ret].
Qed.

Lemma within_rewriteEntry (options : NitroOptions) (targets : list string) :
  indexFile resolve options ∈ targets ->
  within targets (rewriteEntry resolve replace toBase64 experimentalInlineWasm options).
Proof.
  intros Hin. unfold rewriteEntry.
  apply within_bind; [apply within_pathExists|]. intros [|]; [|apply within_ret].
  apply within_bind; [apply within_readFile|]. intros contents.
  destruct experimentalInlineWasm; simpl; [|by apply within_writeFile].
  apply within_bind; [apply within_readFile|]. intros svg.
  apply within_bind; [apply within_readFile|]. intros yoga.
  by apply within_writeFile.
Qed.

(** The hook changes no file but the entry file and the four destinations
    of its copies, whether it returns or throws; on a preset that is not an
    edge preset it changes no file at all. *)
Theorem compiled_writes_only_its_targets (options : NitroOptions) (fs : Files) :
  (forall p,
     p ∉ copyTargets resolve options ++ [indexFile resolve options] ->
     (compiled resolve replace toBase64 experimentalInlineWasm useSatoriWasm options fs).2
       !! p = fs !! p) /\
  (preset options ∉ Options.edgeProvidersSupported ->
   compiled resolve replace toBase64 experimentalInlineWasm useSatoriWasm options fs
     = (Returned tt, fs)).
Proof.
  unfold compiled. simpl. split.
  - intros p Hp. case_bool_decide; [|done].
    revert fs p Hp. apply within_bind; [apply within_copyAssets|].
    intros _. apply within_rewriteEntry. copy_target.
  - intros Hpreset. by rewrite bool_decide_eq_false_2.
Qed.

(** The entry file is rewritten last: when the hook throws, for a missing
    asset, the entry file is as it was, provided no copy lands on it. *)
Theorem compiled_failure_keeps_entry (options : NitroOptions) (fs : Files) (e : Exn) :
  indexFile resolve options ∉ copyTargets resolve options ->
  (compiled resolve replace toBase64 experimentalInlineWasm useSatoriWasm options fs).1
    = Thrown e ->
  (compiled resolve replace toBase64 experimentalInlineWasm useSatoriWasm options fs).2
    !! indexFile resolve options = fs !! indexFile resolve options.
Proof.
  intros Hindex. unfold compiled. simpl. case_bool_decide; [|done].
  assert (forall fs1,
            (copyAssets resolve experimentalInlineWasm useSatoriWasm options fs1).2
              !! indexFile resolve options = fs1 !! indexFile resolve options) as Hcopy.
  { intros fs1. apply (within_copyAssets options []). by rewrite app_nil_r. }
  assert (forall fs1 e1,
            (rewriteEntry resolve replace toBase64 experimentalInlineWasm options fs1).1
              = Thrown e1 ->
            (rewriteEntry resolve replace toBase64 experimentalInlineWasm options fs1).2
              = fs1) as Hrewrite.
  { intros fs1 e1. unfold rewriteEntry, pathExists, readFile, writeFile, bind, gets,
      modify, ret. simpl.
    case_bool_decide; [|done].
    destruct (fs1 !! indexFile resolve options); [|done].
    destruct experimentalInlineWasm; simpl; [|done].
    destruct (fs1 !! asset resolve "svg2png.wasm"); [|done].
    by destruct (fs1 !! asset resolve "yoga.wasm"). }
  unfold bind. specialize (Hcopy fs).
  destruct (copyAssets resolve experimentalInlineWasm useSatoriWasm options fs)
    as [[[]|e0] fs1]; simpl in *; [|done].
  intros Hthrown. by rewrite (Hrewrite fs1 e Hthrown).
Qed.

End HookFacts.

End CompiledFacts.

(** ** The further properties on the samples *)

Section RunningFurther.
Import Sample Sample2.

(** The route [/blog/post-1] matches [/blog/**] and [/blog/post-1], whose
    records hold numbers only: the page's options are merged shallowly, the
    most specific rule winning on [width], and handed to [screenshot]. *)
Lemma resolve_shallow_merge_witness :
  let entry : Obj :=
    {[ "route" := VStr "/blog/post-1"; "path" := VStr "/blog/post-1";
       "provider" := VStr "browser"; "static" := VBool true;
       "width" := VNum 800; "height" := VNum 500 ]} in
  let w := setQueue [entry] initialWorld in
  Forall typedRule (sampleMatchAll "/blog/post-1") /\
  layered (reverse (sampleMatchAll "/blog/post-1")) /\
  resolveRoute (H:=sampleImports) "/blog/post-1" (Some staticPage) = Some entry /\
  exists entry1,
    screenshotQueue w !! 0%nat = Some entry1 /\
    screenshotOptions sampleConfig entry1 "http://localhost:3000"
      = {[ "host" := VStr "http://localhost:3000";
           "route" := VStr "/blog/post-1"; "path" := VStr "/blog/post-1";
           "provider" := VStr "browser"; "static" := VBool true;
           "component" := VStr "OgImageBasic";
           "width" := VNum 800; "height" := VNum 500 ]} /\
    length (screenshotCalls
              (trace (captureJob (H:=sampleImports) sampleConfig fairEnv
                        "http://localhost:3000" 1 0 entry1 w).2)) = 1%nat.
Proof.
  intros entry w.
  assert (Forall typedRule (sampleMatchAll "/blog/post-1")) as Htyped.
  { apply typedRuleb_sound. vm_compute. reflexivity. }
  assert (layered (reverse (sampleMatchAll "/blog/post-1"))) as Hlay.
  { apply layeredb_sound. vm_compute. reflexivity. }
  assert (resolveRoute (H:=sampleImports) "/blog/post-1" (Some staticPage) = Some entry)
    as Hres.
  { vm_compute. reflexivity. }
  split; [exact Htyped|]. split; [exact Hlay|]. split; [exact Hres|].
  destruct (resolve_shallow_merge (H:=sampleImports) sampleConfig fairEnv "/blog/post-1"
              staticPage "http://localhost:3000" entry 1 0 w w Htyped Hlay Hres)
    as (entry1 & Hq & Hopts & Hcall);
    [reflexivity|vm_compute; reflexivity|reflexivity|].
  exists entry1. split; [exact Hq|]. split.
  - rewrite Hopts. vm_compute. reflexivity.
  - rewrite Hcall. reflexivity.
Defined.


Lemma most_specific_record_enables_witness :
  matchAll (Imports:=openImports) "/private/open" = [privateAllRule] ++ [openRule] /\
  resolveRoute (H:=openImports) "/private/open" (Some staticPage)
    = Some (makeEntry "/private/open" (sampleExtract staticPage)
              (routeRulesOf (H:=openImports) "/private/open")).
Proof.
  split; [reflexivity|].
  apply (most_specific_record_enables (H:=openImports) "/private/open" staticPage
           [privateAllRule] openRule {[ "width" := VNum 600 ]});
    try reflexivity; discriminate.
Defined.

Lemma completion_skips_settled_witness :
  forEach (completeEntry (H:=sampleImports) sampleConfig scenarioEnv "http://localhost:3000")
      0 (screenshotQueue scenarioWorld) scenarioWorld
    = (Returned tt, scenarioWorld).
Proof.
  apply (completion_skips_settled (H:=sampleImports) sampleConfig scenarioEnv
           "http://localhost:3000" scenarioWorld).
  repeat constructor.
Defined.

Lemma hook_entry_is_not_route_only_witness :
  resolveRoute (H:=sampleImports) "/about" (Some dynamicPage)
    = Some {[ "route" := VStr "/about"; "path" := VStr "/about";
              "provider" := VStr "browser" ]} /\
  routeOnly {[ "route" := VStr "/about"; "path" := VStr "/about";
               "provider" := VStr "browser" ]} = false.
Proof.
  assert (resolveRoute (H:=sampleImports) "/about" (Some dynamicPage)
          = Some {[ "route" := VStr "/about"; "path" := VStr "/about";
                    "provider" := VStr "browser" ]}) as Hres.
  { vm_compute. reflexivity. }
  split; [exact Hres|].
  exact (hook_entry_is_not_route_only (H:=sampleImports) "/about" (Some dynamicPage) _ Hres).
Defined.

Lemma stub_completed_like_hook_witness :
  completeEntry (H:=sampleImports) sampleConfig scenarioEnv "http://localhost:3000" 2
      {[ "route" := VStr "/stub" ]} stubWorld
    = (Returned tt,
       setQueue
         (<[2%nat := {[ "route" := VStr "/stub"; "path" := VStr "/stub";
                        "provider" := VStr "browser"; "static" := VBool true ]}]>
            (screenshotQueue stubWorld))
         (emit (Fetch (VStr "/stub")
                  (Some (withBase (Imports:=sampleImports) (baseURL sampleConfig)
                           "http://localhost:3000")))
            stubWorld)).
Proof.
  apply (stub_completed_like_hook (H:=sampleImports) sampleConfig scenarioEnv
           "http://localhost:3000" "/stub" staticPage 2);
    [discriminate|reflexivity|vm_compute; reflexivity|vm_compute; reflexivity].
Defined.

Lemma completion_failure_aborts_batch_witness :
  (passes (H:=sampleImports) sampleConfig stubEnv "http://localhost:3000" stubWorld).1
    = Thrown (Error "404 Not Found") /\
  screenshotCalls
    (trace (passes (H:=sampleImports) sampleConfig stubEnv "http://localhost:3000"
              stubWorld).2)
    = screenshotCalls (trace stubWorld) /\
  progressLines
    (trace (passes (H:=sampleImports) sampleConfig stubEnv "http://localhost:3000"
              stubWorld).2)
    = progressLines (trace stubWorld) /\
  written (passes (H:=sampleImports) sampleConfig stubEnv "http://localhost:3000"
             stubWorld).2
    = written stubWorld.
Proof.
  assert ((passes (H:=sampleImports) sampleConfig stubEnv "http://localhost:3000"
             stubWorld).1 = Thrown (Error "404 Not Found")) as Hthrown.
  { vm_compute. reflexivity. }
  split; [exact Hthrown|].
  apply (completion_failure_aborts_batch (H:=sampleImports) sampleConfig stubEnv
           "http://localhost:3000" stubWorld _ Hthrown).
  vm_compute. repeat constructor.
Defined.

Lemma no_browser_no_capture_witness :
  exists w',
    captureScreenshots (H:=sampleImports) sampleConfig noBrowserEnv scenarioWorld
      = (Returned tt, w') /\
    trace w' =
      [CallHook [jobA; jobB];
       LoggerInfo "Ensuring chromium install for og:image generation...";
       SpawnInstall; SpawnServe "/out/public"; CreateBrowser;
       LoggerLogRed "Failed to create a browser to create og:images.";
       PreviewKill] /\
    written w' = [] /\
    screenshotQueue w' = [].
Proof.
  destruct (no_browser_no_capture (H:=sampleImports) sampleConfig noBrowserEnv
              scenarioWorld [jobA; jobB])
    as (w' & Hrun & Htr & Hw & Hq & _); [reflexivity|discriminate|discriminate|].
  exists w'. repeat split; [exact Hrun|exact Htr|exact Hw|exact Hq].
Defined.

Lemma second_drain_is_idle_witness :
  let w1 := (captureScreenshots (H:=sampleImports) sampleConfig scenarioEnv
               scenarioWorld).2 in
  captureScreenshots (H:=sampleImports) sampleConfig scenarioEnv w1
    = (Returned tt, emit (CallHook []) w1).
Proof.
  apply (second_drain_is_idle (H:=sampleImports) sampleConfig scenarioEnv scenarioWorld);
    [vm_compute; reflexivity|reflexivity].
Defined.

Lemma drain_captures_settled_jobs_witness :
  exists w',
    captureScreenshots (H:=sampleImports) sampleConfig scenarioEnv scenarioWorld
      = (Returned tt, w') /\
    written w' = [("/out/public/b/__og_image__/og.png"%string, png)] /\
    screenshotQueue w' = [].
Proof.
  destruct (drain_captures_settled_jobs (H:=sampleImports) sampleConfig scenarioEnv
              scenarioWorld [jobA; jobB])
    as (w' & Hrun & _ & _ & Hw & Hq);
    [reflexivity|discriminate|repeat constructor|repeat constructor|reflexivity|].
  exists w'. split; [exact Hrun|]. split; [|exact Hq].
  rewrite Hw. vm_compute. reflexivity.
Defined.

Lemma capture_writes_only_job_images_witness :
  (length (written (capturePass (H:=sampleImports) sampleConfig scenarioEnv
                      "http://localhost:3000" [jobA; jobB] scenarioWorld).2)
     <= 2)%nat.
Proof.
  exact (proj1 (capture_writes_only_job_images (H:=sampleImports) sampleConfig scenarioEnv
                  "http://localhost:3000" [jobA; jobB] scenarioWorld)).
Defined.

Lemma plugin_touches_only_its_url_witness :
  optionCacheStorage
    (renderHtml (H:=sampleImports) true true 0 [staticPage]
       {| url := "/about"; responseHeaders := [] |} initialWorld).1 !! "/blog"
    = None.
Proof.
  destruct (plugin_touches_only_its_url (H:=sampleImports) true true 0 [staticPage]
              {| url := "/about"; responseHeaders := [] |} initialWorld) as (Hother & _).
  rewrite Hother; [reflexivity|discriminate].
Defined.

Lemma loadFont_then_loadFont_witness :
  let font' := Font.withData inter400 [Byte.x00; Byte.x01] in
  Font.loadFont (fun _ => [Byte.x00; Byte.x01]) "http://localhost:3000"
      (fun _ => Thrown (Error "offline")) pretty inter400 fontStore
    = (Returned font', fontStore) /\
  Font.loadFont (fun _ => [Byte.x00; Byte.x01]) "http://localhost:3000"
      (fun _ => Thrown (Error "offline")) pretty font' fontStore
    = (Returned font', fontStore).
Proof.
  assert (Font.loadFont (fun _ => [Byte.x00; Byte.x01]) "http://localhost:3000"
            (fun _ => Thrown (Error "offline")) pretty inter400 fontStore
          = (Returned (Font.withData inter400 [Byte.x00; Byte.x01]), fontStore)) as Hload.
  { vm_compute. reflexivity. }
  split; [exact Hload|].
  destruct (loadFont_then_loadFont _ _ _ _ inter400 _ fontStore fontStore Hload)
    as (_ & _ & _ & _ & _ & Hagain).
  exact Hagain.
Defined.

Lemma inline_wasm_default_excludes_browser_witness :
  Options.experimentalInlineWasm (Options.defaultOptions netlifyEnv generateOptions) = true /\
  Options.useProvider (Options.defaultOptions netlifyEnv generateOptions) (VStr "browser")
    = None.
Proof.
  split; [reflexivity|].
  destruct (OptionsFacts.inline_wasm_default_excludes_browser netlifyEnv generateOptions)
    as (_ & _ & Hnone); [reflexivity|exact Hnone].
Defined.

Lemma drain_hooked_iff_force_prerender_witness :
  Options.drainHooks devOptions = [] /\
  Options.playground (Options.defaultOptions netlifyEnv devOptions) = true.
Proof.
  destruct (OptionsFacts.drain_hooked_iff_force_prerender netlifyEnv devOptions)
    as (_ & _ & Hdev).
  apply Hdev. reflexivity.
Defined.

Lemma normalise_fonts_witness :
  Options.fonts
    (Options.normalise
       (Options.normalise (Options.defaultOptions netlifyEnv generateOptions)))
    = ["Inter:400"; "Inter:700"]%string.
Proof.
  destruct (OptionsFacts.normalise_fonts
              (Options.normalise (Options.defaultOptions netlifyEnv generateOptions)))
    as (_ & Hkeep & _).
  rewrite Hkeep; [reflexivity|discriminate].
Defined.

(** On the [cloudflare] preset with the wasm assets missing, the hook copies
    the fonts, throws at the first wasm file and leaves the entry file as it
    was. *)
Lemma compiled_failure_keeps_entry_witness :
  (Compiled.compiled sampleResolve replaceFirst (fun text => text) false false
     cloudflare buildFiles).1
    = Thrown (Error "ENOENT: no such file or directory") /\
  (Compiled.compiled sampleResolve replaceFirst (fun text => text) false false
     cloudflare buildFiles).2 !! "/out/server/index.mjs"
    = Some "export default handler"%string /\
  (Compiled.compiled sampleResolve replaceFirst (fun text => text) false false
     cloudflare buildFiles).2 !! "/out/public/inter-latin-ext-400-normal.woff"
    = Some "font 400"%string.
Proof.
  assert ((Compiled.compiled sampleResolve replaceFirst (fun text => text) false false
             cloudflare buildFiles).1
          = Thrown (Error "ENOENT: no such file or directory")) as Hthrown.
  { vm_compute. reflexivity. }
  split; [exact Hthrown|]. split; [|vm_compute; reflexivity].
  change "/out/server/index.mjs"%string with (Compiled.indexFile sampleResolve cloudflare).
  rewrite (CompiledFacts.compiled_failure_keeps_entry sampleResolve replaceFirst
             (fun text => text) false false cloudflare buildFiles
             (Error "ENOENT: no such file or directory"));
    [vm_compute; reflexivity| |exact Hthrown].
  vm_compute. intros Hin.
  repeat (apply elem_of_cons in Hin as [Hin|Hin]; [discriminate Hin|]).
  by apply elem_of_nil in Hin.
Defined.

Lemma compiled_writes_only_its_targets_witness :
  (Compiled.compiled sampleResolve replaceFirst (fun text => text) false false
     cloudflare buildFiles).2
    !! "./runtime/public-assets/inter-latin-ext-400-normal.woff"
    = Some "font 400"%string.
Proof.
  destruct (CompiledFacts.compiled_writes_only_its_targets sampleResolve replaceFirst
              (fun text => text) false false cloudflare buildFiles) as (Hframe & _).
  rewrite Hframe; [vm_compute; reflexivity|].
  vm_compute. intros Hin.
  repeat (apply elem_of_cons in Hin as [Hin|Hin]; [discriminate Hin|]).
  by apply elem_of_nil in Hin.
Defined.

(** The rule for [/private] says [ogImage: false], yet the [render:html]
    plugin, which never looks at the rules, caches the options of the page
    under [/private] and asks for its image to be prerendered; and a
    route-only item for [/private], inserted through the
    [og-image:prerenderScreenshots] hook, is completed with the [false] read
    as no overlay, captured and written. *)
Lemma disabled_route_is_skipped_counterexample :
  matchAll (Imports:=sampleImports) "/private" = [] ++ [privateRule] /\
  privateRule !! "ogImage" = Some (VBool false) /\
  renderHtml (H:=sampleImports) true false 0 [satoriPage]
      {| url := "/private"; responseHeaders := [] |} initialWorld
    = (setCache
         {[ "/private" :=
              {| value := VObj {[ "provider" := VStr "satori"; "static" := VBool true ]};
                 expiresAt := 3600000 |} ]}
         initialWorld,
       {| url := "/private";
          responseHeaders :=
            [("x-nitro-prerender"%string, "/private/__og_image__/og.png"%string)] |}) /\
  screenshotCalls
    (trace (captureScreenshots (H:=sampleImports) sampleConfig insertingEnv initialWorld).2)
    = [(0%nat,
        {[ "host" := VStr "http://localhost:3000";
           "route" := VStr "/private"; "path" := VStr "/private";
           "provider" := VStr "browser"; "static" := VBool true;
           "component" := VStr "OgImageBasic";
           "width" := VNum 1200; "height" := VNum 630 ]})] /\
  written (captureScreenshots (H:=sampleImports) sampleConfig insertingEnv initialWorld).2
    = [("/out/public/private/__og_image__/og.png"%string, png)].
Proof. repeat split; vm_compute; reflexivity. Qed.

(** The second job of three has a number for a route: the first job is
    captured, the loop throws at the second, and the third, whose capture
    would succeed, is never attempted and gets no progress line. *)
Lemma capture_pass_isolates_failures_counterexample :
  (exists e,
     (capturePass (H:=sampleImports) sampleConfig fairEnv "http://localhost:3000"
        [jobA; jobNumbered; jobB] initialWorld).1 = Thrown e) /\
  screenshotCalls
    (trace (capturePass (H:=sampleImports) sampleConfig fairEnv "http://localhost:3000"
              [jobA; jobNumbered; jobB] initialWorld).2)
    = [(0%nat, screenshotOptions sampleConfig jobA "http://localhost:3000")] /\
  length
    (progressLines
       (trace (capturePass (H:=sampleImports) sampleConfig fairEnv "http://localhost:3000"
                 [jobA; jobNumbered; jobB] initialWorld).2))
    = 1%nat /\
  written (capturePass (H:=sampleImports) sampleConfig fairEnv "http://localhost:3000"
             [jobA; jobNumbered; jobB] initialWorld).2
    = [("/out/public/a/__og_image__/og.png"%string, png)] /\
  jobImage (H:=sampleImports) sampleConfig fairEnv "http://localhost:3000" 2 jobB
    = Some png.
Proof.
  split; [eexists; vm_compute; reflexivity|].
  repeat split; vm_compute; reflexivity.
Qed.

(** An array met by a record, and a record met by an array, are merged key
    by key, the array counting as the record of its indices. *)
Example defu_array_meets_record :
  prop "ogImage"
    (defu [∅;
           {[ "ogImage" := VObj {[ "a" := VArr [VNum 1];
                                   "b" := VObj {[ "x" := VNum 1 ]} ]} ]};
           {[ "ogImage" := VObj {[ "a" := VObj {[ "y" := VNum 1 ]};
                                   "b" := VArr [VNum 2] ]} ]}])
    = VObj {[ "a" := VObj {[ "0" := VNum 1; "y" := VNum 1 ]};
              "b" := VObj {[ "0" := VNum 2; "x" := VNum 1 ]} ]}.
Proof. vm_compute. reflexivity. Qed.

End RunningFurther.
